(** * Verification of [cpp/support/debug_utils.h] (mlc-llm)

    The header holds the logit debugging probe: a process-wide registry
    for a tokenizer ([DebugRegistry]), two gates read from the
    environment variable [MLC_DEBUG_LOGITS] and the reporter
    [DebugPrintLogits], which prints the top-k logits of every sequence
    of a batch.

    The embedding is shallow.  Logits are IEEE 754 binary32 values
    ([spec_float] with precision 24 and maximal exponent 128), C++ [int]
    values are integers of [Z] with the narrowing and the overflow checks
    written out, [std::string] is [string] (a list of 8-bit characters),
    and the effects of the reporter (the device-to-host copy, the lines
    written to [std::cout], a propagating exception, undefined behaviour)
    are threaded through a small writer-and-outcome monad. *)

From Stdlib Require Import ZArith List String Ascii Bool Lia.
From Stdlib Require Import Permutation Sorting.Sorted DecimalString.
From Stdlib Require Import Floats.SpecFloat.
Import ListNotations.

Local Open Scope string_scope.
Local Open Scope list_scope.
Local Open Scope Z_scope.

(* ================================================================== *)
(** * Single precision floating point *)

Module Float32.

Definition prec : Z := 24.
Definition emax : Z := 128.

Definition float : Type := spec_float.

Definition zero : float := S754_zero false.
Definition nan : float := S754_nan.

Definition is_nan (x : float) : bool :=
  match x with S754_nan => true | _ => false end.

(** [x < y], [x <= y]; both are false as soon as one side is a NaN. *)
Definition ltb (x y : float) : bool := SFltb x y.
Definition leb (x y : float) : bool := SFleb x y.

(** [x > y] of C++ is [y < x]. *)
Definition gtb (x y : float) : bool := ltb y x.

Definition add (x y : float) : float := SFadd prec emax x y.
Definition div (x y : float) : float := SFdiv prec emax x y.

(** Conversion of an [int] to [float] (round to nearest, ties to even). *)
Definition of_int (z : Z) : float := binary_normalize prec emax z 0 false.

(** The value with the given 32-bit pattern (sign, 8 exponent bits,
    23 fraction bits); used to write concrete tensors. *)
Definition of_bits (b : Z) : float :=
  let s := Z.testbit b 31 in
  let e := Z.land (Z.shiftr b 23) 255 in
  let m := Z.land b (2 ^ 23 - 1) in
  if e =? 255 then (if m =? 0 then S754_infinity s else S754_nan)
  else if e =? 0 then
    match m with Zpos p => S754_finite s p (-149) | _ => S754_zero s end
  else
    match m + 2 ^ 23 with
    | Zpos p => S754_finite s p (e - 150)
    | _ => S754_nan
    end.

(** [a / b] rounded to the nearest integer, ties to even, for
    [0 <= a] and [0 < b]. *)
Definition div_nearest_even (a b : Z) : Z :=
  let q := a / b in
  match 2 * (a mod b) ?= b with
  | Lt => q
  | Gt => q + 1
  | Eq => if Z.even q then q else q + 1
  end.

(** What [std::fixed << std::setprecision(4)] prints for a finite
    value: the decimal with four fractional digits nearest to it, given
    here as its number of ten-thousandths (so [17000] stands for the
    text [1.7000]).  Infinities and NaN are printed as words. *)
Definition fixed4 (x : float) : option Z :=
  match x with
  | S754_zero _ => Some 0
  | S754_finite s m e =>
      let n := if 0 <=? e then Zpos m * 2 ^ e * 10000
               else div_nearest_even (Zpos m * 10000) (2 ^ (- e)) in
      Some (if s then - n else n)
  | _ => None
  end.

(** The place of a value that is not a NaN in the order of the
    floats: sign class first, then exponent and mantissa (both counted
    downwards for a negative value). *)
Definition order_key (x : float) : Z * Z * Z :=
  match x with
  | S754_infinity true => (-2, 0, 0)
  | S754_infinity false => (2, 0, 0)
  | S754_zero _ => (0, 0, 0)
  | S754_nan => (0, 0, 0)
  | S754_finite false m e => (1, e, Zpos m)
  | S754_finite true m e => (-1, - e, Zneg m)
  end.

Definition key_lt (k k' : Z * Z * Z) : Prop :=
  let '(a, b, c) := k in
  let '(a', b', c') := k' in
  a < a' \/ (a = a' /\ (b < b' \/ (b = b' /\ c < c'))).

End Float32.

Abbreviation float := Float32.float.

(* ================================================================== *)
(** * C++ [int] *)

Definition INT_MIN : Z := - 2 ^ 31.
Definition INT_MAX : Z := 2 ^ 31 - 1.

Definition in_int_range (z : Z) : bool := (INT_MIN <=? z) && (z <=? INT_MAX).

(** Conversion of an [int64_t] to [int]: the value modulo [2^32]. *)
Definition int_of_int64 (z : Z) : Z := (z + 2 ^ 31) mod 2 ^ 32 - 2 ^ 31.

(* ================================================================== *)
(** * Strings and characters *)

Definition newline : ascii := ascii_of_nat 10.
Definition tab : ascii := ascii_of_nat 9.
Definition carriage_return : ascii := ascii_of_nat 13.
Definition backslash : ascii := ascii_of_nat 92.
Definition double_quote : ascii := ascii_of_nat 34.

(** [(unsigned char)c]. *)
Definition unsigned_char (c : ascii) : Z := Z.of_nat (nat_of_ascii c).

(** The value of a plain [char]; whether plain [char] is signed is
    implementation-defined. *)
Definition char_value (char_is_signed : bool) (c : ascii) : Z :=
  let n := unsigned_char c in
  if char_is_signed && (128 <=? n) then n - 256 else n.

(** [std::to_string(int)]: the decimal digits, with a minus sign for a
    negative value. *)
Definition to_string (z : Z) : string := NilZero.string_of_int (Z.to_int z).

(** A byte is printable when it lies in the ASCII range 32-126. *)
Definition printable (c : ascii) : bool :=
  (32 <=? unsigned_char c) && (unsigned_char c <=? 126).

Fixpoint all_chars (P : ascii -> bool) (s : string) : bool :=
  match s with
  | EmptyString => true
  | String c r => P c && all_chars P r
  end.

(** The two lower-case hexadecimal digits of a byte. *)
Definition hex_digit (n : Z) : ascii :=
  if n <? 10 then ascii_of_nat (Z.to_nat (48 + n))
  else ascii_of_nat (Z.to_nat (87 + n)).

Definition hex2 (c : ascii) : string :=
  String (hex_digit (unsigned_char c / 16))
         (String (hex_digit (unsigned_char c mod 16)) EmptyString).

(** ** The escaping loop of [DebugPrintLogits] (lines 115-122) *)

Section Escape.

Variable char_is_signed : bool.

(** One iteration of [for (char c : token_str)]: what is appended to
    [escaped_token]. *)
Definition escape_char (c : ascii) : string :=
  if Ascii.eqb c newline then String backslash "n"
  else if Ascii.eqb c tab then String backslash "t"
  else if Ascii.eqb c carriage_return then String backslash "r"
  else if (char_value char_is_signed c <? 32)
          || (char_value char_is_signed c >? 126)
       then String backslash "x" ++ to_string (unsigned_char c)
  else String c EmptyString.

Fixpoint escape_token (token_str : string) : string :=
  match token_str with
  | EmptyString => EmptyString
  | String c rest => escape_char c ++ escape_token rest
  end.

End Escape.

(** What the specification asks of the escape of one byte: a two-digit
    hexadecimal escape outside the printable range. *)
Definition spec_escape_char (c : ascii) : string :=
  if Ascii.eqb c newline then String backslash "n"
  else if Ascii.eqb c tab then String backslash "t"
  else if Ascii.eqb c carriage_return then String backslash "r"
  else if negb (printable c) then String backslash "x" ++ hex2 c
  else String c EmptyString.

(** [needle] occurs in [s] as a substring. *)
Fixpoint is_substring (needle s : string) : bool :=
  String.prefix needle s
  || match s with
     | EmptyString => false
     | String _ r => is_substring needle r
     end.

(* ================================================================== *)
(** * Effects

    A computation yields the events it performed, in order, and the way
    it ended. *)

(** The device of a tensor ([DLDevice]); only the distinction between
    host memory and anything else matters here. *)
Inductive DLDevice : Type :=
| kDLCPU
| kDLAccelerator (device_id : Z).

(** One line written to [std::cout], up to and including its
    [std::endl]. *)
Inductive line : Type :=
| Banner (phase : string)
| RequestHeader (req_id : string) (seq_idx : Z)
| TopEntry (rank token_id : Z) (logit : float) (token : option string)
| Stats (max_logit min_logit mean_logit : float)
| Blank
| EndBanner.

Inductive event : Type :=
| EvCopyTo (src dst : DLDevice)     (* a tensor is read and copied *)
| EvCout (l : line).                (* a line is written *)

Inductive outcome (A : Type) : Type :=
| Returned (a : A)                  (* normal completion *)
| Thrown                            (* a C++ exception propagates *)
| Undefined.                        (* undefined behaviour was reached *)

Arguments Returned {A} a.
Arguments Thrown {A}.
Arguments Undefined {A}.

Definition M (A : Type) : Type := (list event * outcome A)%type.

Definition ret {A : Type} (a : A) : M A := ([], Returned a).

Definition bind {A B : Type} (m : M A) (k : A -> M B) : M B :=
  match m with
  | (t, Returned a) => let (t', r) := k a in (t ++ t', r)
  | (t, Thrown) => (t, Thrown)
  | (t, Undefined) => (t, Undefined)
  end.

Declare Scope cpp_scope.
Delimit Scope cpp_scope with cpp.
Notation "x <- m ;; k" := (bind m (fun x => k))
  (at level 100, m at next level, right associativity) : cpp_scope.
Notation "m ;; k" := (bind m (fun _ => k))
  (at level 100, right associativity) : cpp_scope.
Local Open Scope cpp_scope.

Definition throw {A : Type} : M A := ([], Thrown).
Definition undefined {A : Type} : M A := ([], Undefined).

(** Reaching a statement whose precondition [b] fails is undefined
    behaviour. *)
Definition require (b : bool) : M unit := if b then ret tt else undefined.

Definition cout (l : line) : M unit := ([EvCout l], Returned tt).

(** [try { body } catch (...) { handler }]. *)
Definition try_catch_all {A : Type} (body handler : M A) : M A :=
  match body with
  | (t, Thrown) => let (t', r) := handler in (t ++ t', r)
  | _ => body
  end.

(** [for (int i = start; ...; ++i) body], run for [n] iterations. *)
Fixpoint for_loop (n : nat) (i : Z) (body : Z -> M unit) : M unit :=
  match n with
  | O => ret tt
  | S n' => body i ;; for_loop n' (i + 1) body
  end.

(** [for (int i = lo; i < hi; ++i) body]. *)
Definition for_int (lo hi : Z) (body : Z -> M unit) : M unit :=
  for_loop (Z.to_nat (hi - lo)) lo body.

(** ** What an observer sees of a run *)

Definition trace {A : Type} (m : M A) : list event := fst m.
Definition result {A : Type} (m : M A) : outcome A := snd m.

(** An exception leaves the computation. *)
Definition throws {A : Type} (m : M A) : bool :=
  match result m with
  | Thrown => true
  | _ => false
  end.

(** The lines written to [std::cout]. *)
Fixpoint cout_lines (t : list event) : list line :=
  match t with
  | [] => []
  | EvCout l :: r => l :: cout_lines r
  | _ :: r => cout_lines r
  end.

(** The number of tensor reads. *)
Fixpoint tensor_reads (t : list event) : nat :=
  match t with
  | [] => O
  | EvCopyTo _ _ :: r => S (tensor_reads r)
  | _ :: r => tensor_reads r
  end.

(** The per-sequence blocks of a report: every [RequestHeader] line
    opens a block, which carries the identifier and the index of its
    header. *)
Fixpoint request_headers (ls : list line) : list (string * Z) :=
  match ls with
  | [] => []
  | RequestHeader req_id seq_idx :: r => (req_id, seq_idx) :: request_headers r
  | _ :: r => request_headers r
  end.

(** A top-k entry as printed: rank, token id, score and the token
    string when there is one. *)
Record entry : Type := mk_entry {
  entry_rank : Z;
  entry_token_id : Z;
  entry_logit : float;
  entry_token : option string
}.

(** The lines of the block of sequence [target]: those after its header
    and before the next header or the closing banner.  [cur] is the
    index of the block being read, if any. *)
Fixpoint block_from (cur : option Z) (target : Z) (ls : list line)
  : list line :=
  match ls with
  | [] => []
  | RequestHeader _ seq_idx :: r => block_from (Some seq_idx) target r
  | EndBanner :: r => block_from None target r
  | l :: r =>
      match cur with
      | Some c => if c =? target then l :: block_from cur target r
                  else block_from cur target r
      | None => block_from cur target r
      end
  end.

Definition block_of_seq (target : Z) (ls : list line) : list line :=
  block_from None target ls.

Fixpoint entries_of (ls : list line) : list entry :=
  match ls with
  | [] => []
  | TopEntry rank token_id logit token :: r =>
      mk_entry rank token_id logit token :: entries_of r
  | _ :: r => entries_of r
  end.

Fixpoint stats_of (ls : list line) : list (float * float * float) :=
  match ls with
  | [] => []
  | Stats mx mn mean :: r => (mx, mn, mean) :: stats_of r
  | _ :: r => stats_of r
  end.

(* ================================================================== *)
(** * The tokenizer and its registry (lines 27-44) *)

(** The object behind a [Tokenizer] reference.  The class is declared in
    [tokenizers/tokenizers.h]; the probe uses one method of it,
    [IdToToken], which returns the token string or throws ([None]). *)
Record TokenizerObj : Type := {
  IdToToken : Z -> option string
}.

(** [Tokenizer] is an object reference: it is either null ([None],
    for which [defined()] is false) or points to an object. *)
Definition Tokenizer : Type := option TokenizerObj.

Definition defined (t : Tokenizer) : bool :=
  match t with Some _ => true | None => false end.

(** [class DebugRegistry]: its one field. *)
Record DebugRegistry : Type := {
  tokenizer : Tokenizer
}.

(** The state of the process the probe lives in: the environment block
    (name and value pairs, searched in order) and the object that
    [DebugRegistry::Global()] points to, its function-local static
    [reg]. *)
Record Process : Type := {
  environ : list (string * string);
  DebugRegistry_Global : DebugRegistry
}.

(** [static DebugRegistry reg;] is default-constructed: its tokenizer is
    the null reference. *)
Definition initial_registry : DebugRegistry := {| tokenizer := None |}.

Definition start_process (env : list (string * string)) : Process :=
  {| environ := env; DebugRegistry_Global := initial_registry |}.

Definition DebugRegisterTokenizer (t : Tokenizer) (p : Process) : Process :=
  {| environ := environ p; DebugRegistry_Global := {| tokenizer := t |} |}.

Definition DebugGetTokenizer (p : Process) : Tokenizer :=
  tokenizer (DebugRegistry_Global p).

(** A sequence of registrations, first to last. *)
Definition register_all (ts : list Tokenizer) (p : Process) : Process :=
  fold_left (fun q t => DebugRegisterTokenizer t q) ts p.

(* ================================================================== *)
(** * The activation gate (lines 47-55) *)

(** [std::getenv]: the value of the first entry named [name], or the
    null pointer. *)
Fixpoint getenv (env : list (string * string)) (name : string)
  : option string :=
  match env with
  | [] => None
  | (n, v) :: r => if String.eqb n name then Some v else getenv r name
  end.

Definition MLC_DEBUG_LOGITS : string := "MLC_DEBUG_LOGITS".

Definition IsLogitDebugEnabled (p : Process) : bool :=
  match getenv (environ p) MLC_DEBUG_LOGITS with
  | Some _ => true
  | None => false
  end.

Definition IsLogitDebugVerbose (p : Process) : bool :=
  match getenv (environ p) MLC_DEBUG_LOGITS with
  | Some debug_level => String.eqb debug_level "verbose"
  | None => false
  end.

(** The variable is present in the environment. *)
Definition env_present (env : list (string * string)) (name : string) : Prop :=
  In name (map fst env).

(* ================================================================== *)
(** * Tensors *)

(** An [NDArray] of element type float32: its device, its shape and its
    elements in row-major order. *)
Record NDArray : Type := {
  device : DLDevice;
  shape : list Z;
  data : list float
}.

(** [logits.CopyTo(dev)]: reads the tensor and returns a copy of it on
    [dev]. *)
Definition CopyTo (a : NDArray) (dev : DLDevice) : M NDArray :=
  ([EvCopyTo (device a) dev],
   Returned {| device := dev; shape := shape a; data := data a |}).

(** [a->shape[i]]; reading past the dimensions is undefined. *)
Definition shape_at (a : NDArray) (i : nat) : M Z :=
  match nth_error (shape a) i with
  | Some d => ret d
  | None => undefined
  end.

(** [p[i]] for a pointer [p] to the elements of a host tensor; reading
    outside of the buffer is undefined. *)
Definition load (buf : list float) (i : Z) : M float :=
  if i <? 0 then undefined
  else match nth_error buf (Z.to_nat i) with
       | Some x => ret x
       | None => undefined
       end.

(** [a * b] on [int]; signed overflow is undefined. *)
Definition int_mul (a b : Z) : M Z :=
  require (in_int_range (a * b)) ;; ret (a * b).

(* ================================================================== *)
(** * Algorithms of the standard library *)

(** The elements of the probe's vector: [(token_id, logit_value)]. *)
Definition token_logit : Type := (Z * float)%type.

(** The comparator of line 99:
    [[](const auto& a, const auto& b) { return a.second > b.second; }]. *)
Definition by_logit_desc (a b : token_logit) : bool :=
  Float32.gtb (snd a) (snd b).

(** [std::max_element]: the first largest element.  [best] is the
    element the iterator [largest] points to. *)
Fixpoint max_element_from (best : float) (l : list float) : float :=
  match l with
  | [] => best
  | x :: r => max_element_from (if Float32.ltb best x then x else best) r
  end.

(** [std::min_element]: the first smallest element. *)
Fixpoint min_element_from (best : float) (l : list float) : float :=
  match l with
  | [] => best
  | x :: r => min_element_from (if Float32.ltb x best then x else best) r
  end.

(** [*std::max_element(first, last)]: on an empty range the algorithm
    returns [last], and dereferencing it is undefined. *)
Definition deref_max_element (l : list float) : M float :=
  match l with
  | [] => undefined
  | x :: r => ret (max_element_from x r)
  end.

Definition deref_min_element (l : list float) : M float :=
  match l with
  | [] => undefined
  | x :: r => ret (min_element_from x r)
  end.

(** [std::accumulate(first, last, init)]: [init + x0 + x1 + ...], from
    the left, in [float]. *)
Definition accumulate (l : list float) (init : float) : float :=
  fold_left Float32.add l init.

(** ** [std::partial_sort]

    The standard fixes the result of
    [std::partial_sort(first, middle, last, comp)] only up to the order
    of equivalent elements and of the tail, and only for a comparator
    that is a strict weak ordering on the elements.  The reporter below
    is therefore parameterised by the algorithm; [partial_sort_conforms]
    is what the standard asks of it, and [insertion_partial_sort] is one
    algorithm that conforms. *)

Section PartialSortContract.

Variable A : Type.

(** [comp] is a strict weak ordering on the elements of [l]: it is
    irreflexive and transitive, and its complement is transitive (which,
    for a strict partial order, says that incomparability is
    transitive). *)
Definition strict_weak_order_on (comp : A -> A -> bool) (l : list A) : Prop :=
  (forall a, In a l -> comp a a = false)
  /\ (forall a b c, In a l -> In b l -> In c l ->
        comp a b = true -> comp b c = true -> comp a c = true)
  /\ (forall a b c, In a l -> In b l -> In c l ->
        comp a b = false -> comp b c = false -> comp a c = false).

(** [l] is sorted with respect to [comp]: no element is ordered
    before an earlier one. *)
Definition sorted_wrt (comp : A -> A -> bool) (l : list A) : Prop :=
  StronglySorted (fun a b => comp b a = false) l.

Record partial_sort_conforms
  (partial_sort : (A -> A -> bool) -> nat -> list A -> list A) : Prop := {
  (** the algorithm works in place: the vector keeps its size *)
  partial_sort_length : forall comp middle l,
      List.length (partial_sort comp middle l) = List.length l;
  partial_sort_permutes : forall comp middle l,
      (middle <= List.length l)%nat -> strict_weak_order_on comp l ->
      Permutation (partial_sort comp middle l) l;
  (** [first, middle) is sorted *)
  partial_sort_sorted : forall comp middle l,
      (middle <= List.length l)%nat -> strict_weak_order_on comp l ->
      sorted_wrt comp (firstn middle (partial_sort comp middle l));
  (** and holds the smallest elements with respect to [comp] *)
  partial_sort_smallest : forall comp middle l a b,
      (middle <= List.length l)%nat -> strict_weak_order_on comp l ->
      In a (firstn middle (partial_sort comp middle l)) ->
      In b (skipn middle (partial_sort comp middle l)) ->
      comp b a = false
}.

(** Stable insertion of [x] in front of a sorted list. *)
Fixpoint insert_sorted (comp : A -> A -> bool) (x : A) (l : list A) : list A :=
  match l with
  | [] => [x]
  | y :: r => if comp y x then y :: insert_sorted comp x r else x :: y :: r
  end.

(** A conforming algorithm: it sorts the whole range by insertion. *)
Definition insertion_partial_sort (comp : A -> A -> bool) (middle : nat)
  (l : list A) : list A :=
  fold_right (insert_sorted comp) [] l.

End PartialSortContract.

Arguments strict_weak_order_on {A} comp l.
Arguments sorted_wrt {A} comp l.
Arguments partial_sort_conforms {A} partial_sort.
Arguments insert_sorted {A} comp x l.
Arguments insertion_partial_sort {A} comp middle l.

(* ================================================================== *)
(** * The reporter (lines 64-148) *)

(** The text of a line: the operands of the [<<] chain that writes it.
    Floats are written with [std::fixed] and [std::setprecision(4)]. *)
Inductive chunk : Type :=
| Text (s : string)
| Int (z : Z)
| Fixed4 (x : float)
| Endl.

Definition render (l : line) : list chunk :=
  match l with
  | Banner phase =>
      [Text (String newline "=== MLC DEBUG LOGITS ["); Text phase;
       Text "] ==="; Endl]
  | RequestHeader req_id seq_idx =>
      [Text "Request ID: "; Text req_id; Text " (seq "; Int seq_idx;
       Text ")"; Endl]
  | TopEntry rank token_id logit token =>
      [Text "  ["; Int rank; Text "] token_id="; Int token_id;
       Text " logit="; Fixed4 logit]
      ++ match token with
         | Some escaped_token =>
             [Text (" token=" ++ String double_quote EmptyString);
              Text escaped_token; Text (String double_quote EmptyString)]
         | None => []
         end
      ++ [Endl]
  | Stats max_logit min_logit mean_logit =>
      [Text "  Stats: max="; Fixed4 max_logit; Text " min=";
       Fixed4 min_logit; Text " mean="; Fixed4 mean_logit; Endl]
  | Blank => [Endl]
  | EndBanner => [Text "=== END DEBUG LOGITS ==="; Endl]
  end.

(** The text holds no line break. *)
Definition line_break_free (s : string) : bool :=
  all_chars (fun c => negb (Ascii.eqb c newline)) s.

(** The chunks make one line of output: the only line break is the
    [std::endl] that ends them. *)
Definition single_line (cs : list chunk) : bool :=
  match rev cs with
  | Endl :: r =>
      forallb (fun c => match c with
                        | Text s => line_break_free s
                        | Endl => false
                        | _ => true
                        end) r
  | _ => false
  end.

(** The number of line breaks in a text. *)
Fixpoint count_line_breaks (s : string) : nat :=
  match s with
  | EmptyString => O
  | String c r =>
      ((if Ascii.eqb c newline then 1 else 0) + count_line_breaks r)%nat
  end.

(** The line breaks a chunk puts on the output: those of its text, or
    the one of [std::endl]; a number is printed without any. *)
Definition chunk_line_breaks (c : chunk) : nat :=
  match c with
  | Text s => count_line_breaks s
  | Endl => 1%nat
  | Int _ | Fixed4 _ => O
  end.

(** The line breaks of the text of a list of lines. *)
Definition line_breaks (ls : list line) : nat :=
  list_sum (map (fun l => list_sum (map chunk_line_breaks (render l))) ls).

(** [int top_k = 10]. *)
Definition default_top_k : Z := 10.

(** [p[0], ..., p[n-1]] for [p = buf + off]. *)
Fixpoint load_range (buf : list float) (off : Z) (n : nat) : M (list float) :=
  match n with
  | O => ret []
  | S n' =>
      x <- load buf off ;;
      rest <- load_range buf (off + 1) n' ;;
      ret (x :: rest)
  end.

(** The vector built by lines 91-94: every logit paired with its index. *)
Fixpoint enumerate_from (i : Z) (l : list float) : list token_logit :=
  match l with
  | [] => []
  | x :: r => (i, x) :: enumerate_from (i + 1) r
  end.

(** [v[i]] on a [std::vector]; an index out of range is undefined. *)
Definition vector_at (v : list token_logit) (i : Z) : M token_logit :=
  if i <? 0 then undefined
  else match nth_error v (Z.to_nat i) with
       | Some e => ret e
       | None => undefined
       end.

(** [tokenizer->IdToToken(token_id)]. *)
Definition call_IdToToken (t : Tokenizer) (token_id : Z) : M string :=
  match t with
  | None => undefined
  | Some obj =>
      match IdToToken obj token_id with
      | Some token_str => ret token_str
      | None => throw
      end
  end.

Section Reporter.

(** Implementation-defined: the signedness of plain [char] and the
    algorithm behind [std::partial_sort]. *)
Variable char_is_signed : bool.
Variable partial_sort :
  (token_logit -> token_logit -> bool) -> nat -> list token_logit ->
  list token_logit.

(** Lines 110-127: the token string appended to an entry, if any. *)
Definition token_text (t : Tokenizer) (verbose : bool) (token_id : Z)
  : M (option string) :=
  let has_tokenizer := defined t in
  if has_tokenizer && verbose then
    try_catch_all
      (token_str <- call_IdToToken t token_id ;;
       let escaped_token := escape_token char_is_signed token_str in
       ret (Some escaped_token))
      (ret None)
  else ret None.

(** Lines 103-129: the body of the loop that prints the entries. *)
Definition print_entry (t : Tokenizer) (verbose : bool)
  (token_logits : list token_logit) (i : Z) : M unit :=
  e <- vector_at token_logits i ;;
  let token_id := fst e in
  let logit_val := snd e in
  token <- token_text t verbose token_id ;;
  cout (TopEntry i token_id logit_val token).

(** Lines 131-140: the statistics of the full row. *)
Definition print_stats (seq_logits : list float) (vocab_size : Z) : M unit :=
  max_logit <- deref_max_element seq_logits ;;
  min_logit <- deref_min_element seq_logits ;;
  let sum_logits := accumulate seq_logits Float32.zero in
  let mean_logit := Float32.div sum_logits (Float32.of_int vocab_size) in
  cout (Stats max_logit min_logit mean_logit).

(** Lines 82-144: the body of the loop over the sequences. *)
Definition print_sequence (logits_data : list float)
  (batch_size vocab_size : Z) (verbose : bool) (t : Tokenizer)
  (request_ids : list string) (top_k : Z) (seq_idx : Z) : M unit :=
  let req_id :=
    if seq_idx <? Z.of_nat (List.length request_ids)
    then nth (Z.to_nat seq_idx) request_ids EmptyString
    else "unknown" in
  cout (RequestHeader req_id seq_idx) ;;
  off <- int_mul seq_idx vocab_size ;;
  seq_logits <- load_range logits_data off (Z.to_nat vocab_size) ;;
  let token_logits := enumerate_from 0 seq_logits in
  let middle := Z.min top_k vocab_size in
  require ((0 <=? middle) && (middle <=? vocab_size)) ;;
  let token_logits :=
    partial_sort by_logit_desc (Z.to_nat middle) token_logits in
  let print_count := Z.min top_k vocab_size in
  for_int 0 print_count (print_entry t verbose token_logits) ;;
  (if verbose then print_stats seq_logits vocab_size else ret tt) ;;
  (if seq_idx <? batch_size - 1 then cout Blank else ret tt).

Definition DebugPrintLogits (p : Process) (logits : NDArray)
  (phase : string) (request_ids : list string) (top_k : Z) : M unit :=
  if negb (IsLogitDebugEnabled p) then ret tt
  else
    logits_cpu <- CopyTo logits kDLCPU ;;
    shape0 <- shape_at logits_cpu 0 ;;
    let batch_size := int_of_int64 shape0 in
    shape1 <- shape_at logits_cpu 1 ;;
    let vocab_size := int_of_int64 shape1 in
    let logits_data := data logits_cpu in
    let verbose := IsLogitDebugVerbose p in
    let t := DebugGetTokenizer p in
    cout (Banner phase) ;;
    for_int 0 batch_size
      (print_sequence logits_data batch_size vocab_size verbose t
         request_ids top_k) ;;
    cout EndBanner ;;
    cout Blank.

End Reporter.

(* ================================================================== *)
(** * What the reporter prints, as a function of its inputs

    The definitions of this part are not taken from the source: they
    describe the report of a call with defined behaviour, and the
    theorems below prove that [DebugPrintLogits] prints exactly that. *)

(** [start, start + 1, ..., start + n - 1]. *)
Fixpoint iota (start : Z) (n : nat) : list Z :=
  match n with
  | O => []
  | S n' => start :: iota (start + 1) n'
  end.

(** The scores of sequence [seq_idx]. *)
Definition row_of (buf : list float) (vocab_size seq_idx : Z) : list float :=
  firstn (Z.to_nat vocab_size) (skipn (Z.to_nat (seq_idx * vocab_size)) buf).

Definition no_nan (l : list float) : Prop :=
  forall x, In x l -> Float32.is_nan x = false.

Definition no_nanb (l : list float) : bool :=
  forallb (fun x => negb (Float32.is_nan x)) l.

(** The call has defined behaviour: the probe is enabled, the tensor has
    the two dimensions [batch_size] and [vocab_size], its sizes fit in
    [int] and its buffer holds [batch_size * vocab_size] elements,
    [top_k] is not negative, and the statistics of verbose mode have a
    row that is not empty to work on. *)
Record well_defined_call (p : Process) (logits : NDArray) (top_k : Z)
  (batch_size vocab_size : Z) : Prop := {
  call_enabled : IsLogitDebugEnabled p = true;
  call_rank2 : shape logits = [batch_size; vocab_size];
  call_batch : 0 <= batch_size <= INT_MAX;
  call_vocab : 0 <= vocab_size <= INT_MAX;
  call_size : batch_size * vocab_size <= INT_MAX;
  call_data : Z.of_nat (List.length (data logits)) = batch_size * vocab_size;
  call_top_k : 0 <= top_k;
  call_stats : IsLogitDebugVerbose p = true -> 0 < vocab_size
}.

Section Report.

Variable char_is_signed : bool.
Variable partial_sort :
  (token_logit -> token_logit -> bool) -> nat -> list token_logit ->
  list token_logit.

(** The token string of an entry: present when a tokenizer is
    registered, the mode is verbose and the lookup succeeds. *)
Definition token_of (t : Tokenizer) (verbose : bool) (token_id : Z)
  : option string :=
  match t with
  | Some obj =>
      if verbose
      then option_map (escape_token char_is_signed) (IdToToken obj token_id)
      else None
  | None => None
  end.

(** The vector of a row after [std::partial_sort]. *)
Definition ranked (top_k : Z) (row : list float) : list token_logit :=
  partial_sort by_logit_desc
    (Z.to_nat (Z.min top_k (Z.of_nat (List.length row))))
    (enumerate_from 0 row).

Definition entry_line (t : Tokenizer) (verbose : bool)
  (v : list token_logit) (i : Z) : line :=
  let e := nth (Z.to_nat i) v (0, Float32.zero) in
  TopEntry i (fst e) (snd e) (token_of t verbose (fst e)).

Definition entry_of (t : Tokenizer) (verbose : bool)
  (v : list token_logit) (i : Z) : entry :=
  let e := nth (Z.to_nat i) v (0, Float32.zero) in
  mk_entry i (fst e) (snd e) (token_of t verbose (fst e)).

Definition stats_line (row : list float) : line :=
  Stats (max_element_from (hd Float32.zero row) (tl row))
        (min_element_from (hd Float32.zero row) (tl row))
        (Float32.div (accumulate row Float32.zero)
                     (Float32.of_int (Z.of_nat (List.length row)))).

Definition request_id_of (request_ids : list string) (seq_idx : Z) : string :=
  match nth_error request_ids (Z.to_nat seq_idx) with
  | Some id => id
  | None => "unknown"
  end.

Definition sequence_lines (buf : list float) (batch_size vocab_size : Z)
  (verbose : bool) (t : Tokenizer) (request_ids : list string) (top_k : Z)
  (seq_idx : Z) : list line :=
  let row := row_of buf vocab_size seq_idx in
  RequestHeader (request_id_of request_ids seq_idx) seq_idx
  :: map (entry_line t verbose (ranked top_k row))
         (iota 0 (Z.to_nat (Z.min top_k vocab_size)))
  ++ (if verbose then [stats_line row] else [])
  ++ (if seq_idx <? batch_size - 1 then [Blank] else []).

(** The lines of a sequence below its header. *)
Definition sequence_body (buf : list float) (batch_size vocab_size : Z)
  (verbose : bool) (t : Tokenizer) (top_k : Z) (seq_idx : Z) : list line :=
  let row := row_of buf vocab_size seq_idx in
  map (entry_line t verbose (ranked top_k row))
      (iota 0 (Z.to_nat (Z.min top_k vocab_size)))
  ++ (if verbose then [stats_line row] else [])
  ++ (if seq_idx <? batch_size - 1 then [Blank] else []).

Definition report_lines (p : Process) (logits : NDArray) (phase : string)
  (request_ids : list string) (top_k : Z) (batch_size vocab_size : Z)
  : list line :=
  Banner phase
  :: flat_map (sequence_lines (data logits) batch_size vocab_size
                 (IsLogitDebugVerbose p) (DebugGetTokenizer p)
                 request_ids top_k)
              (iota 0 (Z.to_nat batch_size))
  ++ [EndBanner; Blank].

End Report.

(** A line that neither opens nor closes a block. *)
Definition inner_line (l : line) : bool :=
  match l with
  | RequestHeader _ _ | EndBanner => false
  | _ => true
  end.

(** The scores of a list of entries, in the order printed. *)
Definition scores (es : list entry) : list float := map entry_logit es.

(** Descending order: every score is at least every later one. *)
Definition descending (l : list float) : Prop :=
  StronglySorted (fun a b => Float32.leb b a = true) l.

(** The same, decided. *)
Fixpoint descendingb (l : list float) : bool :=
  match l with
  | [] => true
  | a :: r => forallb (fun b => Float32.leb b a) r && descendingb r
  end.

(** ** Concrete inputs used by the examples *)

Definition env_plain : list (string * string) := [(MLC_DEBUG_LOGITS, "1")].
Definition env_verbose : list (string * string) :=
  [(MLC_DEBUG_LOGITS, "verbose")].

(** A tokenizer that fails on token 2 and knows a token with a line
    break. *)
Definition sample_tokenizer : Tokenizer :=
  Some {| IdToToken := fun id =>
            if id =? 2 then None
            else if id =? 4 then Some (String newline "a")
            else Some "tok" |}.

(** A batch of two sequences over a vocabulary of five tokens. *)
Definition sample_logits : NDArray :=
  {| device := kDLAccelerator 0;
     shape := [2; 5];
     data := map Float32.of_int [1; 5; 3; 2; 4; 10; -3; 7; 7; 0] |}.

(** 1000.4f, as its bit pattern [0x447A199A]. *)
Definition f1000_4 : float := Float32.of_bits 1148852634.

(** One sequence whose three scores are all 1000.4f. *)
Definition equal_logits : NDArray :=
  {| device := kDLCPU; shape := [1; 3];
     data := [f1000_4; f1000_4; f1000_4] |}.

(** One sequence whose two scores are NaN. *)
Definition nan_logits : NDArray :=
  {| device := kDLCPU; shape := [1; 2]; data := [Float32.nan; Float32.nan] |}.

(* ================================================================== *)
(** * The order of the floats *)

Module Float32Facts.
Import Float32.

Lemma ltb_key (x y : float) :
  is_nan x = false -> is_nan y = false ->
  (ltb x y = true <-> key_lt (order_key x) (order_key y)).
Proof.
  unfold ltb, SFltb.
  destruct x as [sx | sx | | sx mx ex], y as [sy | sy | | sy my ey];
    try discriminate; intros _ _;
    try destruct sx; try destruct sy; cbn -[Z.compare Z.lt];
    try (split; [discriminate | lia]); try (split; [lia | reflexivity]).
  all: change (Pos.compare_cont Eq mx my) with (Zpos mx ?= Zpos my);
    destruct (Z.compare_spec ex ey);
    destruct (Z.compare_spec (Zpos mx) (Zpos my)); cbn;
    split; try discriminate; try reflexivity; lia.
Qed.

Lemma leb_key (x y : float) :
  is_nan x = false -> is_nan y = false ->
  (leb x y = true <-> ~ key_lt (order_key y) (order_key x)).
Proof.
  unfold leb, SFleb.
  destruct x as [sx | sx | | sx mx ex], y as [sy | sy | | sy my ey];
    try discriminate; intros _ _;
    try destruct sx; try destruct sy; cbn -[Z.compare Z.lt];
    try (split; [discriminate | lia]); try (split; [lia | reflexivity]).
  all: change (Pos.compare_cont Eq mx my) with (Zpos mx ?= Zpos my);
    destruct (Z.compare_spec ex ey);
    destruct (Z.compare_spec (Zpos mx) (Zpos my)); cbn;
    split; try discriminate; try reflexivity; lia.
Qed.

Lemma ltb_nan_l (y : float) : ltb nan y = false.
Proof. destruct y; reflexivity. Qed.

Lemma ltb_nan_r (x : float) : ltb x nan = false.
Proof. destruct x; reflexivity. Qed.

Lemma ltb_not_nan (x y : float) :
  ltb x y = true -> is_nan x = false /\ is_nan y = false.
Proof. destruct x, y; cbn; try discriminate; auto. Qed.

Lemma leb_not_nan (x y : float) :
  leb x y = true -> is_nan x = false /\ is_nan y = false.
Proof. destruct x, y; cbn; try discriminate; auto. Qed.

Lemma ltb_irrefl (x : float) : ltb x x = false.
Proof.
  destruct (is_nan x) eqn:Hx.
  - destruct x; try discriminate. reflexivity.
  - destruct (ltb x x) eqn:H; [ | reflexivity ].
    apply ltb_key in H; trivial.
    destruct (order_key x) as [[a b] c]. cbn in H. lia.
Qed.

Lemma ltb_trans (x y z : float) :
  ltb x y = true -> ltb y z = true -> ltb x z = true.
Proof.
  intros Hxy Hyz.
  destruct (ltb_not_nan _ _ Hxy) as [Hx Hy].
  destruct (ltb_not_nan _ _ Hyz) as [_ Hz].
  apply ltb_key in Hxy; trivial. apply ltb_key in Hyz; trivial.
  apply ltb_key; trivial.
  destruct (order_key x) as [[a b] c], (order_key y) as [[a' b'] c'],
    (order_key z) as [[a'' b''] c'']. cbn in *. lia.
Qed.

(** Without NaN, [<] is the complement of the converse of [<=]. *)
Lemma ltb_false_leb (x y : float) :
  is_nan x = false -> is_nan y = false ->
  (ltb x y = false <-> leb y x = true).
Proof.
  intros Hx Hy. rewrite leb_key by trivial.
  rewrite <- ltb_key by trivial.
  destruct (ltb x y); split; intros; try discriminate; try reflexivity.
  - exfalso; auto.
Qed.

Lemma leb_trans (x y z : float) :
  leb x y = true -> leb y z = true -> leb x z = true.
Proof.
  intros Hxy Hyz.
  destruct (leb_not_nan _ _ Hxy) as [Hx Hy].
  destruct (leb_not_nan _ _ Hyz) as [_ Hz].
  apply leb_key in Hxy; trivial. apply leb_key in Hyz; trivial.
  apply leb_key; trivial.
  destruct (order_key x) as [[a b] c], (order_key y) as [[a' b'] c'],
    (order_key z) as [[a'' b''] c'']. cbn in *. lia.
Qed.

Lemma leb_refl (x : float) : is_nan x = false -> leb x x = true.
Proof.
  intros Hx. apply ltb_false_leb; trivial. apply ltb_irrefl.
Qed.

Lemma ltb_leb (x y : float) : ltb x y = true -> leb x y = true.
Proof.
  intros H. destruct (ltb_not_nan _ _ H) as [Hx Hy].
  apply ltb_key in H; trivial. apply leb_key; trivial.
  destruct (order_key x) as [[a b] c], (order_key y) as [[a' b'] c'].
  cbn in *. lia.
Qed.

(** Negative transitivity of [<] on values that are not NaN. *)
Lemma ltb_false_trans (x y z : float) :
  is_nan x = false -> is_nan y = false -> is_nan z = false ->
  ltb x y = false -> ltb y z = false -> ltb x z = false.
Proof.
  intros Hx Hy Hz Hxy Hyz.
  apply ltb_false_leb in Hxy; trivial. apply ltb_false_leb in Hyz; trivial.
  apply ltb_false_leb; trivial. eapply leb_trans; eassumption.
Qed.

End Float32Facts.

(* ================================================================== *)
(** * The decoder registry *)

Lemma get_after_register (d : Tokenizer) (p : Process) :
  DebugGetTokenizer (DebugRegisterTokenizer d p) = d.
Proof. reflexivity. Qed.

Lemma register_keeps_environ (d : Tokenizer) (p : Process) :
  environ (DebugRegisterTokenizer d p) = environ p.
Proof. reflexivity. Qed.

Lemma get_after_register_all (ts : list Tokenizer) (p : Process) :
  DebugGetTokenizer (register_all ts p) = last ts (DebugGetTokenizer p).
Proof.
  revert p. induction ts as [ | t ts IH ]; intros p.
  - reflexivity.
  - cbn [register_all fold_left]. fold (register_all ts (DebugRegisterTokenizer t p)).
    rewrite IH, get_after_register.
    destruct ts as [ | t' ts' ]; [ reflexivity | ].
    cbn [last]. clear IH. revert t'.
    induction ts' as [ | u ts' IH' ]; intros t'; [ reflexivity | ].
    cbn [last]. apply IH'.
Qed.

(** C8.  The registry keeps the last tokenizer registered: the one
    returned by [DebugGetTokenizer] right after [DebugRegisterTokenizer d]
    is [d], whatever was registered before, a second registration wins
    over the first, after any sequence of registrations the last one is
    returned, and in a process where nothing was registered the null
    (undefined) tokenizer is returned. *)
Theorem registry_last_writer_wins :
  (forall d p, DebugGetTokenizer (DebugRegisterTokenizer d p) = d)
  /\ (forall d1 d2 p,
        DebugGetTokenizer (DebugRegisterTokenizer d2 (DebugRegisterTokenizer d1 p))
        = d2)
  /\ (forall env ts,
        DebugGetTokenizer (register_all ts (start_process env)) = last ts None)
  /\ (forall env,
        DebugGetTokenizer (start_process env) = None
        /\ defined (DebugGetTokenizer (start_process env)) = false).
Proof.
  repeat split.
  intros env ts. apply (get_after_register_all ts (start_process env)).
Qed.

(* ================================================================== *)
(** * The activation gate *)

Lemma getenv_present (env : list (string * string)) (name : string) :
  env_present env name <-> exists v, getenv env name = Some v.
Proof.
  unfold env_present. induction env as [ | [n v] r IH ]; cbn.
  - split; [ intros [] | intros [v H]; discriminate ].
  - destruct (String.eqb_spec n name) as [-> | Hne].
    + split; [ intros _; exists v; reflexivity | intros _; left; reflexivity ].
    + rewrite <- IH. split; [ intros [H | H]; [ contradiction | exact H ] | auto ].
Qed.

Lemma enabled_iff_present (p : Process) :
  IsLogitDebugEnabled p = true <-> env_present (environ p) MLC_DEBUG_LOGITS.
Proof.
  rewrite getenv_present. unfold IsLogitDebugEnabled.
  destruct (getenv (environ p) MLC_DEBUG_LOGITS) as [v | ].
  - split; [ intros _; exists v; reflexivity | reflexivity ].
  - split; [ discriminate | intros [v H]; discriminate ].
Qed.

Lemma verbose_iff_value (p : Process) :
  IsLogitDebugVerbose p = true
  <-> getenv (environ p) MLC_DEBUG_LOGITS = Some "verbose".
Proof.
  unfold IsLogitDebugVerbose.
  destruct (getenv (environ p) MLC_DEBUG_LOGITS) as [v | ].
  - rewrite String.eqb_eq. split; [ intros ->; reflexivity | intros [= ->]; reflexivity ].
  - split; discriminate.
Qed.

(** C6.  [IsLogitDebugEnabled] is true exactly when [MLC_DEBUG_LOGITS]
    is present in the environment, whatever its value, and
    [IsLogitDebugVerbose] is true exactly when the variable is present
    with the value ["verbose"]; when the variable is absent both are
    false. *)
Theorem gate_contract :
  forall p : Process,
    (IsLogitDebugEnabled p = true
     <-> env_present (environ p) MLC_DEBUG_LOGITS)
    /\ (IsLogitDebugVerbose p = true
        <-> getenv (environ p) MLC_DEBUG_LOGITS = Some "verbose")
    /\ (IsLogitDebugVerbose p = true
        <-> env_present (environ p) MLC_DEBUG_LOGITS
            /\ forall v, getenv (environ p) MLC_DEBUG_LOGITS = Some v ->
                         v = "verbose")
    /\ (getenv (environ p) MLC_DEBUG_LOGITS = None ->
        IsLogitDebugEnabled p = false /\ IsLogitDebugVerbose p = false).
Proof.
  intros p. split; [ apply enabled_iff_present | ].
  split; [ apply verbose_iff_value | ].
  split.
  - rewrite verbose_iff_value, getenv_present. split.
    + intros H. split; [ exists "verbose"; exact H | ].
      intros v Hv. rewrite H in Hv. injection Hv as <-. reflexivity.
    + intros [[v Hv] Hall]. rewrite Hv. f_equal. apply Hall, Hv.
  - intros Habsent. unfold IsLogitDebugEnabled, IsLogitDebugVerbose.
    rewrite Habsent. split; reflexivity.
Qed.

(** C9.  Verbose mode implies that the probe is enabled. *)
Theorem verbose_implies_enabled :
  forall p : Process,
    IsLogitDebugVerbose p = true -> IsLogitDebugEnabled p = true.
Proof.
  intros p. unfold IsLogitDebugVerbose, IsLogitDebugEnabled.
  destruct (getenv (environ p) MLC_DEBUG_LOGITS); [ reflexivity | discriminate ].
Qed.

Lemma verbose_implies_enabled_witness :
  IsLogitDebugVerbose (start_process env_verbose) = true
  /\ IsLogitDebugEnabled (start_process env_verbose) = true.
Proof.
  split; [ reflexivity | ].
  apply (verbose_implies_enabled (start_process env_verbose)). reflexivity.
Defined.

(* ================================================================== *)
(** * Escaping of token strings *)

Lemma all_chars_app (P : ascii -> bool) (s1 s2 : string) :
  all_chars P (s1 ++ s2) = all_chars P s1 && all_chars P s2.
Proof.
  induction s1 as [ | c s1 IH ]; cbn; [ reflexivity | ].
  rewrite IH. apply andb_assoc.
Qed.

(** The signedness of plain [char] does not change the escape. *)
Lemma escape_char_signedness (c : ascii) :
  escape_char true c = escape_char false c.
Proof.
  destruct c as [[] [] [] [] [] [] [] []]; vm_compute; reflexivity.
Qed.

Lemma escape_token_signedness (s : string) :
  escape_token true s = escape_token false s.
Proof.
  induction s as [ | c s IH ]; cbn; [ reflexivity | ].
  rewrite IH, escape_char_signedness. reflexivity.
Qed.

Lemma escape_char_newline (signed : bool) :
  escape_char signed newline = String backslash "n".
Proof. destruct signed; reflexivity. Qed.

Lemma escape_char_tab (signed : bool) :
  escape_char signed tab = String backslash "t".
Proof. destruct signed; reflexivity. Qed.

Lemma escape_char_carriage_return (signed : bool) :
  escape_char signed carriage_return = String backslash "r".
Proof. destruct signed; reflexivity. Qed.

(** A printable byte is copied. *)
Lemma escape_char_printable (signed : bool) (c : ascii) :
  printable c = true -> escape_char signed c = String c EmptyString.
Proof.
  destruct signed; destruct c as [[] [] [] [] [] [] [] []]; vm_compute;
    intros H; first [ reflexivity | discriminate H ].
Qed.

(** Whatever the byte, its escape holds printable bytes only. *)
Lemma escape_char_output_printable (signed : bool) (c : ascii) :
  all_chars printable (escape_char signed c) = true.
Proof.
  destruct signed; destruct c as [[] [] [] [] [] [] [] []]; vm_compute;
    reflexivity.
Qed.

(** The escaped string holds no control byte and no byte above 126. *)
Lemma escape_token_output_printable (signed : bool) (s : string) :
  all_chars printable (escape_token signed s) = true.
Proof.
  induction s as [ | c s IH ]; cbn; [ reflexivity | ].
  rewrite all_chars_app, IH, escape_char_output_printable. reflexivity.
Qed.

(** A byte outside of the printable range, other than the three named
    control characters, is written as a backslash, [x] and the decimal
    digits of its value. *)
Lemma escape_char_non_printable (signed : bool) (c : ascii) :
  printable c = false ->
  c <> newline -> c <> tab -> c <> carriage_return ->
  escape_char signed c
  = (String backslash "x" ++ to_string (unsigned_char c))%string.
Proof.
  intros Hp Hn Ht Hr. unfold escape_char.
  destruct (Ascii.eqb_spec c newline); [ contradiction | ].
  destruct (Ascii.eqb_spec c tab); [ contradiction | ].
  destruct (Ascii.eqb_spec c carriage_return); [ contradiction | ].
  assert (H : (char_value signed c <? 32) || (char_value signed c >? 126) = true).
  { revert Hp. clear. destruct signed;
      destruct c as [[] [] [] [] [] [] [] []]; vm_compute;
      intros H; first [ reflexivity | discriminate H ]. }
  rewrite H. reflexivity.
Qed.

(** C1.  The escape of a token string made of a newline, a tab and the
    byte 200 is [\n\t\x200]: the newline and the tab are written as the
    specification says, but the byte 200 is written with the decimal
    digits of its value, not with the two hexadecimal digits [c8], which
    do not occur in the output. *)
Theorem escape_byte_200_is_decimal :
  forall signed : bool,
    let token_str :=
      String newline (String tab (String (ascii_of_nat 200) EmptyString)) in
    escape_token signed token_str
    = (String backslash "n" ++ String backslash "t"
       ++ String backslash "x200")%string
    /\ is_substring (String backslash "n") (escape_token signed token_str) = true
    /\ is_substring (String backslash "t") (escape_token signed token_str) = true
    /\ is_substring (String backslash "xc8") (escape_token signed token_str)
       = false
    /\ escape_char signed (ascii_of_nat 200) = String backslash "x200"
    /\ spec_escape_char (ascii_of_nat 200) = String backslash "xc8"
    /\ all_chars printable (escape_token signed token_str) = true.
Proof.
  intros [ | ]; vm_compute; repeat split.
Qed.

(** C10.  On a token string of printable ASCII bytes (32-126) the
    escaping step is the identity. *)
Theorem escape_printable_identity :
  forall (signed : bool) (token_str : string),
    all_chars printable token_str = true ->
    escape_token signed token_str = token_str.
Proof.
  intros signed token_str. induction token_str as [ | c s IH ]; cbn [all_chars escape_token].
  - reflexivity.
  - intros H. apply andb_true_iff in H. destruct H as [Hc Hs].
    rewrite (escape_char_printable signed c Hc), (IH Hs). reflexivity.
Qed.

Lemma escape_printable_identity_witness :
  all_chars printable "Hello, \world/ ~" = true
  /\ escape_token true "Hello, \world/ ~" = "Hello, \world/ ~".
Proof.
  split; [ reflexivity | ].
  apply (escape_printable_identity true "Hello, \world/ ~"). reflexivity.
Defined.

(* ================================================================== *)
(** * Laws of the effects *)

Lemma bind_returned {A B : Type} (m : M A) (k : A -> M B)
  (t : list event) (a : A) (t' : list event) (r : outcome B) :
  m = (t, Returned a) -> k a = (t', r) -> bind m k = (t ++ t', r).
Proof. intros -> Hk. unfold bind. rewrite Hk. reflexivity. Qed.

Lemma bind_ret_l {A B : Type} (a : A) (k : A -> M B) : bind (ret a) k = k a.
Proof. unfold bind, ret. destruct (k a). reflexivity. Qed.

Lemma throws_bind {A B : Type} (m : M A) (k : A -> M B) :
  throws m = false -> (forall a, throws (k a) = false) ->
  throws (bind m k) = false.
Proof.
  intros Hm Hk. destruct m as [t [a | | ]]; cbn in *.
  - specialize (Hk a). unfold throws, result in *.
    destruct (k a) as [t' r]. exact Hk.
  - discriminate.
  - reflexivity.
Qed.

Lemma throws_try_catch_all {A : Type} (body handler : M A) :
  throws handler = false -> throws (try_catch_all body handler) = false.
Proof.
  intros Hh. destruct body as [t [a | | ]]; cbn; try reflexivity.
  unfold throws, result in *. destruct handler as [t' r]. exact Hh.
Qed.

Lemma throws_for_loop (body : Z -> M unit) :
  (forall i, throws (body i) = false) ->
  forall n start, throws (for_loop n start body) = false.
Proof.
  intros Hb. induction n as [ | n IH ]; intros start; cbn [for_loop].
  - reflexivity.
  - apply throws_bind; [ apply Hb | intros _; apply IH ].
Qed.

Lemma throws_require (b : bool) : throws (require b) = false.
Proof. destruct b; reflexivity. Qed.

Lemma throws_load (buf : list float) (i : Z) : throws (load buf i) = false.
Proof.
  unfold load. destruct (i <? 0); [ reflexivity | ].
  destruct (nth_error buf (Z.to_nat i)); reflexivity.
Qed.

Lemma throws_load_range (buf : list float) (n : nat) :
  forall off, throws (load_range buf off n) = false.
Proof.
  induction n as [ | n IH ]; intros off; cbn [load_range]; [ reflexivity | ].
  apply throws_bind; [ apply throws_load | intros x ].
  apply throws_bind; [ apply IH | reflexivity ].
Qed.

Lemma iota_length (n : nat) : forall start, List.length (iota start n) = n.
Proof. induction n; intros; cbn; [ reflexivity | f_equal; auto ]. Qed.

Lemma in_iota (n : nat) :
  forall start i, In i (iota start n) <-> start <= i < start + Z.of_nat n.
Proof.
  induction n as [ | n IH ]; intros start i; cbn [iota In].
  - lia.
  - rewrite IH. lia.
Qed.

(** A loop whose iterations all return writes their events in turn. *)
Lemma for_loop_returns (body : Z -> M unit) (out : Z -> list event) (n : nat) :
  forall start,
    (forall i, In i (iota start n) -> body i = (out i, Returned tt)) ->
    for_loop n start body = (flat_map out (iota start n), Returned tt).
Proof.
  induction n as [ | n IH ]; intros start Hb; cbn [for_loop iota flat_map].
  - reflexivity.
  - apply bind_returned with (a := tt).
    + apply Hb. left. reflexivity.
    + apply IH. intros i Hi. apply Hb. right. exact Hi.
Qed.

Lemma cout_lines_map (ls : list line) : cout_lines (map EvCout ls) = ls.
Proof. induction ls; cbn; [ | f_equal ]; auto. Qed.

Lemma tensor_reads_map (ls : list line) : tensor_reads (map EvCout ls) = O.
Proof. induction ls; cbn; auto. Qed.

Lemma flat_map_map_EvCout {X : Type} (f : X -> list line) (l : list X) :
  flat_map (fun x => map EvCout (f x)) l = map EvCout (flat_map f l).
Proof.
  induction l as [ | x l IH ]; cbn; [ reflexivity | ].
  rewrite IH, map_app. reflexivity.
Qed.

(* ================================================================== *)
(** * Reading the tensor *)

Lemma int_of_int64_small (z : Z) : 0 <= z <= INT_MAX -> int_of_int64 z = z.
Proof.
  unfold int_of_int64, INT_MAX. intros H.
  rewrite Z.mod_small; lia.
Qed.

Lemma skipn_nth_error {X : Type} (l : list X) :
  forall k x, nth_error l k = Some x -> skipn k l = x :: skipn (S k) l.
Proof.
  induction l as [ | y l IH ]; intros [ | k ] x H; cbn in *; try discriminate.
  - injection H as ->. reflexivity.
  - apply IH. exact H.
Qed.

Lemma load_in_range (buf : list float) (i : Z) :
  0 <= i < Z.of_nat (List.length buf) ->
  exists x, nth_error buf (Z.to_nat i) = Some x /\ load buf i = ret x.
Proof.
  intros H. unfold load.
  destruct (i <? 0) eqn:Hi; [ lia | ].
  destruct (nth_error buf (Z.to_nat i)) as [x | ] eqn:Hx.
  - exists x. split; reflexivity.
  - apply nth_error_None in Hx. lia.
Qed.

Lemma load_range_returns (buf : list float) (n : nat) :
  forall off,
    0 <= off -> off + Z.of_nat n <= Z.of_nat (List.length buf) ->
    load_range buf off n = ret (firstn n (skipn (Z.to_nat off) buf)).
Proof.
  induction n as [ | n IH ]; intros off H0 Hlen; cbn [load_range].
  - reflexivity.
  - destruct (load_in_range buf off) as [x [Hx Hload]]; [ lia | ].
    rewrite Hload, bind_ret_l, IH by lia. rewrite bind_ret_l.
    rewrite (skipn_nth_error _ _ _ Hx). cbn [firstn].
    replace (Z.to_nat (off + 1)) with (S (Z.to_nat off)) by lia.
    reflexivity.
Qed.

Lemma row_of_length (buf : list float) (batch_size vocab_size seq_idx : Z) :
  Z.of_nat (List.length buf) = batch_size * vocab_size ->
  0 <= vocab_size -> 0 <= seq_idx < batch_size ->
  Z.of_nat (List.length (row_of buf vocab_size seq_idx)) = vocab_size.
Proof.
  intros Hlen Hv Hs. unfold row_of.
  rewrite length_firstn, length_skipn. nia.
Qed.

Lemma enumerate_from_length (l : list float) :
  forall i, List.length (enumerate_from i l) = List.length l.
Proof. induction l; intros; cbn; [ | f_equal ]; auto. Qed.

Lemma map_snd_enumerate_from (l : list float) :
  forall i, map snd (enumerate_from i l) = l.
Proof. induction l; intros; cbn; [ | f_equal ]; auto. Qed.

Lemma request_id_of_eq (request_ids : list string) (seq_idx : Z) :
  0 <= seq_idx ->
  (if seq_idx <? Z.of_nat (List.length request_ids)
   then nth (Z.to_nat seq_idx) request_ids EmptyString
   else "unknown")
  = request_id_of request_ids seq_idx.
Proof.
  intros H. unfold request_id_of.
  destruct (seq_idx <? Z.of_nat (List.length request_ids)) eqn:Hlt.
  - destruct (nth_error request_ids (Z.to_nat seq_idx)) as [id | ] eqn:Hid.
    + apply nth_error_nth. exact Hid.
    + apply nth_error_None in Hid. lia.
  - destruct (nth_error request_ids (Z.to_nat seq_idx)) as [id | ] eqn:Hid.
    + assert (Hsome : nth_error request_ids (Z.to_nat seq_idx) <> None)
        by (rewrite Hid; discriminate).
      apply nth_error_Some in Hsome. lia.
    + reflexivity.
Qed.

(* ================================================================== *)
(** * The report of a call with defined behaviour *)

Section ReportOfACall.

Variable char_is_signed : bool.
Variable partial_sort :
  (token_logit -> token_logit -> bool) -> nat -> list token_logit ->
  list token_logit.

Lemma token_text_returns (t : Tokenizer) (verbose : bool) (token_id : Z) :
  token_text char_is_signed t verbose token_id
  = ret (token_of char_is_signed t verbose token_id).
Proof.
  unfold token_text, token_of, call_IdToToken.
  destruct t as [obj | ]; cbn [defined andb]; [ | reflexivity ].
  destruct verbose; [ | reflexivity ].
  destruct (IdToToken obj token_id); reflexivity.
Qed.


Lemma throws_token_text (t : Tokenizer) (verbose : bool) (token_id : Z) :
  throws (token_text char_is_signed t verbose token_id) = false.
Proof. rewrite token_text_returns. reflexivity. Qed.

Lemma throws_print_entry (t : Tokenizer) (verbose : bool)
  (v : list token_logit) (i : Z) :
  throws (print_entry char_is_signed t verbose v i) = false.
Proof.
  unfold print_entry. apply throws_bind.
  - unfold vector_at. destruct (i <? 0); [ reflexivity | ].
    destruct (nth_error v (Z.to_nat i)); reflexivity.
  - intros e. apply throws_bind; [ apply throws_token_text | reflexivity ].
Qed.

Lemma throws_print_stats (row : list float) (vocab_size : Z) :
  throws (print_stats row vocab_size) = false.
Proof.
  unfold print_stats. destruct row as [ | x r ]; reflexivity.
Qed.

Lemma throws_print_sequence (buf : list float) (batch_size vocab_size : Z)
  (verbose : bool) (t : Tokenizer) (request_ids : list string)
  (top_k seq_idx : Z) :
  throws (print_sequence char_is_signed partial_sort buf batch_size
            vocab_size verbose t request_ids top_k seq_idx) = false.
Proof.
  unfold print_sequence.
  apply throws_bind; [ reflexivity | intros _ ].
  apply throws_bind.
  { unfold int_mul. apply throws_bind; [ apply throws_require | reflexivity ]. }
  intros off. apply throws_bind; [ apply throws_load_range | intros row ].
  apply throws_bind; [ apply throws_require | intros _ ].
  apply throws_bind.
  { apply throws_for_loop. intros i. apply throws_print_entry. }
  intros _. apply throws_bind.
  { destruct verbose; [ apply throws_print_stats | reflexivity ]. }
  intros _. destruct (seq_idx <? batch_size - 1); reflexivity.
Qed.

(** [IdToToken] is the one operation modelled as able to throw, and it
    is called inside the [try] block: no run of the model ends with an
    exception. *)
Lemma throws_DebugPrintLogits (p : Process) (logits : NDArray)
  (phase : string) (request_ids : list string) (top_k : Z) :
  throws (DebugPrintLogits char_is_signed partial_sort p logits phase
            request_ids top_k) = false.
Proof.
  unfold DebugPrintLogits.
  destruct (negb (IsLogitDebugEnabled p)); [ reflexivity | ].
  apply throws_bind; [ reflexivity | intros logits_cpu ].
  apply throws_bind.
  { unfold shape_at. destruct (nth_error (shape logits_cpu) 0); reflexivity. }
  intros shape0. apply throws_bind.
  { unfold shape_at. destruct (nth_error (shape logits_cpu) 1); reflexivity. }
  intros shape1. apply throws_bind; [ reflexivity | intros _ ].
  apply throws_bind.
  { apply throws_for_loop. intros i. apply throws_print_sequence. }
  intros _. reflexivity.
Qed.

(** ** The lines of a sequence *)

Hypothesis partial_sort_ok : partial_sort_conforms partial_sort.

Lemma ranked_length (top_k : Z) (row : list float) :
  List.length (ranked partial_sort top_k row) = List.length row.
Proof.
  unfold ranked. rewrite (partial_sort_length _ _ partial_sort_ok).
  apply enumerate_from_length.
Qed.

Lemma print_entry_returns (t : Tokenizer) (verbose : bool)
  (v : list token_logit) (i : Z) :
  0 <= i < Z.of_nat (List.length v) ->
  print_entry char_is_signed t verbose v i
  = ([EvCout (entry_line char_is_signed t verbose v i)], Returned tt).
Proof.
  intros Hi. unfold print_entry, vector_at, entry_line.
  destruct (i <? 0) eqn:H0; [ lia | ].
  destruct (nth_error v (Z.to_nat i)) as [e | ] eqn:He.
  - rewrite bind_ret_l, token_text_returns, bind_ret_l.
    rewrite (nth_error_nth _ _ _ He). reflexivity.
  - apply nth_error_None in He. lia.
Qed.

Lemma print_stats_returns (row : list float) (vocab_size : Z) :
  row <> [] -> vocab_size = Z.of_nat (List.length row) ->
  print_stats row vocab_size = ([EvCout (stats_line row)], Returned tt).
Proof.
  intros Hne ->. destruct row as [ | x r ]; [ contradiction | ].
  reflexivity.
Qed.

Lemma print_sequence_returns (buf : list float) (batch_size vocab_size : Z)
  (verbose : bool) (t : Tokenizer) (request_ids : list string)
  (top_k seq_idx : Z) :
  Z.of_nat (List.length buf) = batch_size * vocab_size ->
  0 <= vocab_size -> batch_size * vocab_size <= INT_MAX ->
  0 <= top_k -> (verbose = true -> 0 < vocab_size) ->
  0 <= seq_idx < batch_size ->
  print_sequence char_is_signed partial_sort buf batch_size vocab_size
    verbose t request_ids top_k seq_idx
  = (map EvCout
       (sequence_lines char_is_signed partial_sort buf batch_size
          vocab_size verbose t request_ids top_k seq_idx),
     Returned tt).
Proof.
  intros Hlen Hv Hmax Hk Hstats Hs.
  pose proof (row_of_length buf batch_size vocab_size seq_idx Hlen Hv Hs)
    as Hrow.
  unfold print_sequence, sequence_lines.
  rewrite request_id_of_eq by lia.
  set (row := row_of buf vocab_size seq_idx) in *.
  cbn [map]. change (EvCout ?l :: ?r) with ([EvCout l] ++ r).
  apply bind_returned with (a := tt); [ reflexivity | ].
  assert (Hmul : int_mul seq_idx vocab_size = ret (seq_idx * vocab_size)).
  { unfold int_mul, in_int_range, INT_MIN.
    replace ((- 2 ^ 31 <=? seq_idx * vocab_size)
             && (seq_idx * vocab_size <=? INT_MAX)) with true.
    - reflexivity.
    - symmetry. apply andb_true_iff. split; apply Z.leb_le; nia. }
  rewrite Hmul, bind_ret_l.
  rewrite load_range_returns by nia. rewrite bind_ret_l.
  change (firstn (Z.to_nat vocab_size)
            (skipn (Z.to_nat (seq_idx * vocab_size)) buf)) with row.
  replace ((0 <=? Z.min top_k vocab_size)
           && (Z.min top_k vocab_size <=? vocab_size)) with true
    by (symmetry; apply andb_true_iff; split; apply Z.leb_le; lia).
  cbn [require]. rewrite bind_ret_l.
  rewrite !map_app.
  assert (Hranked :
    partial_sort by_logit_desc (Z.to_nat (Z.min top_k vocab_size))
      (enumerate_from 0 row) = ranked partial_sort top_k row).
  { unfold ranked. rewrite Hrow. reflexivity. }
  rewrite Hranked.
  apply bind_returned with (a := tt).
  { unfold for_int. rewrite Z.sub_0_r.
    rewrite (for_loop_returns _
               (fun i => [EvCout (entry_line char_is_signed t verbose
                                    (ranked partial_sort top_k row) i)])).
    - f_equal. rewrite map_map. clear.
      generalize (iota 0 (Z.to_nat (Z.min top_k vocab_size))).
      intros l. induction l; cbn; [ | f_equal ]; auto.
    - intros i Hi. apply in_iota in Hi.
      apply print_entry_returns. rewrite ranked_length. lia. }
  apply bind_returned with (a := tt).
  { destruct verbose; [ | reflexivity ].
    apply print_stats_returns; [ | lia ].
    intros Hnil. rewrite Hnil in Hrow. cbn in Hrow.
    specialize (Hstats eq_refl). lia. }
  destruct (seq_idx <? batch_size - 1); reflexivity.
Qed.

(** A call with defined behaviour copies the tensor once, prints the
    lines of [report_lines] and returns. *)
Lemma DebugPrintLogits_returns (p : Process) (logits : NDArray)
  (phase : string) (request_ids : list string) (top_k : Z)
  (batch_size vocab_size : Z) :
  well_defined_call p logits top_k batch_size vocab_size ->
  DebugPrintLogits char_is_signed partial_sort p logits phase request_ids
    top_k
  = (EvCopyTo (device logits) kDLCPU
     :: map EvCout
          (report_lines char_is_signed partial_sort p logits phase
             request_ids top_k batch_size vocab_size),
     Returned tt).
Proof.
  intros [Hen Hshape Hb Hv Hsize Hdata Hk Hstats].
  unfold DebugPrintLogits, report_lines. rewrite Hen. cbn [negb].
  unfold CopyTo.
  change (EvCopyTo ?a ?b :: ?r) with ([EvCopyTo a b] ++ r).
  eapply bind_returned; [ reflexivity | ].
  unfold shape_at. cbn [shape data]. rewrite Hshape. cbn [nth_error].
  rewrite !bind_ret_l. rewrite !int_of_int64_small by assumption.
  cbn [map]. change (EvCout ?l :: ?r) with ([EvCout l] ++ r).
  apply bind_returned with (a := tt); [ reflexivity | ].
  rewrite map_app.
  apply bind_returned with (a := tt); [ | reflexivity ].
  unfold for_int. rewrite Z.sub_0_r.
  rewrite <- flat_map_map_EvCout.
  apply for_loop_returns.
  intros i Hi. apply in_iota in Hi.
  apply print_sequence_returns; try assumption; lia.
Qed.

End ReportOfACall.

(* ================================================================== *)
(** * [std::partial_sort]: a conforming algorithm *)

Section InsertionSort.

Variable A : Type.
Variable comp : A -> A -> bool.

Lemma insert_sorted_length (x : A) (l : list A) :
  List.length (insert_sorted comp x l) = S (List.length l).
Proof.
  induction l as [ | y r IH ]; cbn; [ reflexivity | ].
  destruct (comp y x); cbn; [ f_equal; exact IH | reflexivity ].
Qed.

Lemma insert_sorted_perm (x : A) (l : list A) :
  Permutation (insert_sorted comp x l) (x :: l).
Proof.
  induction l as [ | y r IH ]; cbn; [ apply Permutation_refl | ].
  destruct (comp y x); [ | apply Permutation_refl ].
  eapply Permutation_trans; [ apply perm_skip, IH | apply perm_swap ].
Qed.

Lemma insertion_partial_sort_length (middle : nat) (l : list A) :
  List.length (insertion_partial_sort comp middle l) = List.length l.
Proof.
  unfold insertion_partial_sort.
  induction l as [ | x l IH ]; cbn; [ reflexivity | ].
  rewrite insert_sorted_length, IH. reflexivity.
Qed.

Lemma insertion_partial_sort_perm (middle : nat) (l : list A) :
  Permutation (insertion_partial_sort comp middle l) l.
Proof.
  unfold insertion_partial_sort.
  induction l as [ | x l IH ]; cbn; [ apply Permutation_refl | ].
  eapply Permutation_trans; [ apply insert_sorted_perm | ].
  apply perm_skip, IH.
Qed.

Lemma insert_sorted_sorted (L : list A) (x : A) (l : list A) :
  strict_weak_order_on comp L -> In x L -> incl l L ->
  sorted_wrt comp l -> sorted_wrt comp (insert_sorted comp x l).
Proof.
  intros [Hirr [Htr Hneg]] Hx. unfold sorted_wrt.
  induction l as [ | y r IH ]; intros Hincl Hs; cbn.
  - constructor; constructor.
  - assert (Hy : In y L) by (apply Hincl; left; reflexivity).
    assert (Hr : incl r L) by (intros z Hz; apply Hincl; right; exact Hz).
    inversion Hs as [ | y' r' Hsr Hall ]; subst.
    destruct (comp y x) eqn:Hyx.
    + constructor; [ apply IH; assumption | ].
      apply Forall_forall. intros b Hb.
      apply (Permutation_in _ (insert_sorted_perm x r)) in Hb.
      destruct Hb as [<- | Hb].
      * destruct (comp x y) eqn:Hxy; [ | reflexivity ].
        rewrite <- (Hirr x Hx). symmetry. apply (Htr x y x); assumption.
      * rewrite Forall_forall in Hall. apply Hall, Hb.
    + constructor; [ exact Hs | ].
      constructor; [ exact Hyx | ].
      apply Forall_forall. intros b Hb.
      rewrite Forall_forall in Hall.
      apply (Hneg b y x); auto.
Qed.

Lemma insertion_partial_sort_all_sorted (middle : nat) (l : list A) :
  strict_weak_order_on comp l ->
  sorted_wrt comp (insertion_partial_sort comp middle l).
Proof.
  intros Hswo. unfold insertion_partial_sort.
  assert (H : forall l', incl l' l ->
              sorted_wrt comp (fold_right (insert_sorted comp) [] l')).
  { induction l' as [ | x l' IH ]; intros Hincl; cbn.
    - constructor.
    - apply (insert_sorted_sorted l); trivial.
      + apply Hincl. left. reflexivity.
      + intros z Hz.
        apply (Permutation_in _ (insertion_partial_sort_perm middle l')) in Hz.
        apply Hincl. right. exact Hz.
      + apply IH. intros z Hz. apply Hincl. right. exact Hz. }
  apply H, incl_refl.
Qed.

End InsertionSort.

Lemma StronglySorted_app_inv {X : Type} (R : X -> X -> Prop) (l1 l2 : list X) :
  StronglySorted R (l1 ++ l2) ->
  StronglySorted R l1
  /\ forall a b, In a l1 -> In b l2 -> R a b.
Proof.
  induction l1 as [ | x l1 IH ]; cbn; intros H.
  - split; [ constructor | intros a b [] ].
  - inversion H as [ | x' l' Hs Hall ]; subst.
    destruct (IH Hs) as [Hs1 Hcross].
    rewrite Forall_forall in Hall. split.
    + constructor; [ exact Hs1 | ].
      apply Forall_forall. intros b Hb. apply Hall, in_or_app. left. exact Hb.
    + intros a b [<- | Ha] Hb.
      * apply Hall, in_or_app. right. exact Hb.
      * apply Hcross; assumption.
Qed.

Lemma insertion_partial_sort_conforms (A : Type) :
  partial_sort_conforms (@insertion_partial_sort A).
Proof.
  constructor.
  - intros comp middle l. apply insertion_partial_sort_length.
  - intros comp middle l _ _. apply insertion_partial_sort_perm.
  - intros comp middle l _ Hswo.
    pose proof (insertion_partial_sort_all_sorted A comp middle l Hswo) as Hs.
    unfold sorted_wrt in *.
    rewrite <- (firstn_skipn middle (insertion_partial_sort comp middle l)) in Hs.
    apply StronglySorted_app_inv in Hs. apply Hs.
  - intros comp middle l a b _ Hswo Ha Hb.
    pose proof (insertion_partial_sort_all_sorted A comp middle l Hswo) as Hs.
    unfold sorted_wrt in *.
    rewrite <- (firstn_skipn middle (insertion_partial_sort comp middle l)) in Hs.
    apply StronglySorted_app_inv in Hs. destruct Hs as [_ Hcross].
    apply (Hcross a b); assumption.
Qed.

(** The comparator of the reporter is a strict weak ordering on a row
    without NaN. *)
Lemma by_logit_desc_strict_weak_order (l : list token_logit) :
  no_nan (map snd l) -> strict_weak_order_on by_logit_desc l.
Proof.
  intros Hnan.
  assert (H : forall a, In a l -> Float32.is_nan (snd a) = false).
  { intros a Ha. apply Hnan, in_map, Ha. }
  unfold by_logit_desc, Float32.gtb. repeat split.
  - intros a _. apply Float32Facts.ltb_irrefl.
  - intros a b c _ _ _ Hab Hbc. eapply Float32Facts.ltb_trans; eassumption.
  - intros a b c Ha Hb Hc Hab Hbc.
    apply (Float32Facts.ltb_false_trans (snd c) (snd b) (snd a)); auto.
Qed.

(* ================================================================== *)
(** * Reading a report *)

Lemma request_headers_app (l1 l2 : list line) :
  request_headers (l1 ++ l2) = request_headers l1 ++ request_headers l2.
Proof.
  induction l1 as [ | [ ] l1 IH ]; cbn; try rewrite IH; reflexivity.
Qed.

Lemma request_headers_inner (ls : list line) :
  forallb inner_line ls = true -> request_headers ls = [].
Proof.
  induction ls as [ | [ ] ls IH ]; cbn; intros H; try discriminate; auto.
Qed.

Lemma entries_of_app (l1 l2 : list line) :
  entries_of (l1 ++ l2) = entries_of l1 ++ entries_of l2.
Proof.
  induction l1 as [ | [ ] l1 IH ]; cbn; try rewrite IH; reflexivity.
Qed.

Lemma stats_of_app (l1 l2 : list line) :
  stats_of (l1 ++ l2) = stats_of l1 ++ stats_of l2.
Proof.
  induction l1 as [ | [ ] l1 IH ]; cbn; try rewrite IH; reflexivity.
Qed.

Lemma block_from_inner_app (c target : Z) (ls rest : list line) :
  forallb inner_line ls = true ->
  block_from (Some c) target (ls ++ rest)
  = (if c =? target then ls else []) ++ block_from (Some c) target rest.
Proof.
  induction ls as [ | l ls IH ]; intros H.
  - destruct (c =? target); reflexivity.
  - cbn [forallb] in H. apply andb_true_iff in H. destruct H as [Hl Hls].
    specialize (IH Hls).
    destruct l; try discriminate Hl; cbn [app block_from];
      rewrite IH; destruct (c =? target); reflexivity.
Qed.

Lemma flat_map_select {X : Type} (body : Z -> list X) (target : Z) (n : nat) :
  forall start,
    flat_map (fun j => if j =? target then body j else []) (iota start n)
    = if (start <=? target) && (target <? start + Z.of_nat n)
      then body target else [].
Proof.
  induction n as [ | n IH ]; intros start; cbn [iota flat_map].
  - destruct (Z.leb_spec start target), (Z.ltb_spec target (start + Z.of_nat 0));
      cbn [andb]; first [ reflexivity | lia ].
  - rewrite IH.
    destruct (Z.eqb_spec start target) as [-> | Hne].
    + destruct (Z.leb_spec (target + 1) target); [ lia | ].
      destruct (Z.leb_spec target target); [ | lia ].
      destruct (Z.ltb_spec target (target + Z.of_nat (S n))); [ | lia ].
      cbn [andb]. apply app_nil_r.
    + cbn [app].
      destruct (Z.leb_spec (start + 1) target), (Z.leb_spec start target),
        (Z.ltb_spec target (start + 1 + Z.of_nat n)),
        (Z.ltb_spec target (start + Z.of_nat (S n)));
        cbn [andb]; first [ reflexivity | lia ].
Qed.

Section ReadingAReport.

Variable char_is_signed : bool.
Variable partial_sort :
  (token_logit -> token_logit -> bool) -> nat -> list token_logit ->
  list token_logit.

Lemma sequence_lines_split (buf : list float) (batch_size vocab_size : Z)
  (verbose : bool) (t : Tokenizer) (request_ids : list string)
  (top_k seq_idx : Z) :
  sequence_lines char_is_signed partial_sort buf batch_size vocab_size
    verbose t request_ids top_k seq_idx
  = RequestHeader (request_id_of request_ids seq_idx) seq_idx
    :: sequence_body char_is_signed partial_sort buf batch_size vocab_size
         verbose t top_k seq_idx.
Proof. reflexivity. Qed.

Lemma sequence_body_inner (buf : list float) (batch_size vocab_size : Z)
  (verbose : bool) (t : Tokenizer) (top_k seq_idx : Z) :
  forallb inner_line
    (sequence_body char_is_signed partial_sort buf batch_size vocab_size
       verbose t top_k seq_idx) = true.
Proof.
  unfold sequence_body. rewrite !forallb_app.
  repeat (apply andb_true_iff; split).
  - rewrite forallb_forall. intros l Hl. apply in_map_iff in Hl.
    destruct Hl as [i [<- _]]. reflexivity.
  - destruct verbose; reflexivity.
  - destruct (seq_idx <? batch_size - 1); reflexivity.
Qed.

Lemma request_headers_report (p : Process) (logits : NDArray)
  (phase : string) (request_ids : list string) (top_k : Z)
  (batch_size vocab_size : Z) :
  request_headers
    (report_lines char_is_signed partial_sort p logits phase request_ids
       top_k batch_size vocab_size)
  = map (fun i => (request_id_of request_ids i, i))
        (iota 0 (Z.to_nat batch_size)).
Proof.
  unfold report_lines. cbn [request_headers].
  rewrite request_headers_app. cbn [request_headers]. rewrite app_nil_r.
  generalize (iota 0 (Z.to_nat batch_size)). intros js.
  induction js as [ | j js IH ]; cbn [flat_map map]; [ reflexivity | ].
  rewrite request_headers_app, IH, sequence_lines_split.
  cbn [request_headers].
  rewrite (request_headers_inner _ (sequence_body_inner _ _ _ _ _ _ _)).
  reflexivity.
Qed.

Lemma block_from_sequences (buf : list float) (batch_size vocab_size : Z)
  (verbose : bool) (t : Tokenizer) (request_ids : list string)
  (top_k target : Z) (js : list Z) :
  forall cur,
    block_from cur target
      (flat_map (sequence_lines char_is_signed partial_sort buf batch_size
                   vocab_size verbose t request_ids top_k) js
       ++ [EndBanner; Blank])
    = flat_map
        (fun j => if j =? target
                  then sequence_body char_is_signed partial_sort buf
                         batch_size vocab_size verbose t top_k j
                  else []) js.
Proof.
  induction js as [ | j js IH ]; intros cur; cbn [flat_map app].
  - destruct cur; reflexivity.
  - rewrite sequence_lines_split. cbn [app block_from].
    rewrite <- app_assoc.
    rewrite block_from_inner_app by apply sequence_body_inner.
    rewrite IH. reflexivity.
Qed.

(** The block of a sequence in the report is the body of that
    sequence. *)
Lemma block_of_seq_report (p : Process) (logits : NDArray)
  (phase : string) (request_ids : list string) (top_k : Z)
  (batch_size vocab_size seq_idx : Z) :
  0 <= seq_idx < batch_size ->
  block_of_seq seq_idx
    (report_lines char_is_signed partial_sort p logits phase request_ids
       top_k batch_size vocab_size)
  = sequence_body char_is_signed partial_sort (data logits) batch_size
      vocab_size (IsLogitDebugVerbose p) (DebugGetTokenizer p) top_k seq_idx.
Proof.
  intros Hs. unfold block_of_seq, report_lines. cbn [block_from].
  rewrite block_from_sequences, flat_map_select.
  destruct (Z.leb_spec 0 seq_idx); [ | lia ].
  destruct (Z.ltb_spec seq_idx (0 + Z.of_nat (Z.to_nat batch_size)));
    [ reflexivity | lia ].
Qed.

Lemma entries_of_entry_lines (t : Tokenizer) (verbose : bool)
  (v : list token_logit) (idxs : list Z) :
  entries_of (map (entry_line char_is_signed t verbose v) idxs)
  = map (entry_of char_is_signed t verbose v) idxs.
Proof. induction idxs as [ | i idxs IH ]; cbn; [ | f_equal ]; auto. Qed.

Lemma stats_of_entry_lines (t : Tokenizer) (verbose : bool)
  (v : list token_logit) (idxs : list Z) :
  stats_of (map (entry_line char_is_signed t verbose v) idxs) = [].
Proof. induction idxs as [ | i idxs IH ]; cbn; auto. Qed.

Lemma entries_of_sequence_body (buf : list float)
  (batch_size vocab_size : Z) (verbose : bool) (t : Tokenizer)
  (top_k seq_idx : Z) :
  entries_of
    (sequence_body char_is_signed partial_sort buf batch_size vocab_size
       verbose t top_k seq_idx)
  = map (entry_of char_is_signed t verbose
           (ranked partial_sort top_k (row_of buf vocab_size seq_idx)))
        (iota 0 (Z.to_nat (Z.min top_k vocab_size))).
Proof.
  unfold sequence_body. rewrite !entries_of_app, entries_of_entry_lines.
  destruct verbose, (seq_idx <? batch_size - 1); cbn; apply app_nil_r.
Qed.

Lemma stats_of_sequence_body (buf : list float)
  (batch_size vocab_size : Z) (verbose : bool) (t : Tokenizer)
  (top_k seq_idx : Z) :
  stats_of
    (sequence_body char_is_signed partial_sort buf batch_size vocab_size
       verbose t top_k seq_idx)
  = if verbose
    then match stats_line (row_of buf vocab_size seq_idx) with
         | Stats mx mn mean => [(mx, mn, mean)]
         | _ => []
         end
    else [].
Proof.
  unfold sequence_body. rewrite !stats_of_app, stats_of_entry_lines.
  destruct verbose, (seq_idx <? batch_size - 1); reflexivity.
Qed.

End ReadingAReport.

(* ================================================================== *)
(** * Lists read by index *)

Lemma nth_error_iota (n : nat) :
  forall start k, (k < n)%nat ->
    nth_error (iota start n) k = Some (start + Z.of_nat k).
Proof.
  induction n as [ | n IH ]; intros start k Hk; [ lia | ].
  destruct k as [ | k ]; cbn [iota nth_error].
  - f_equal. lia.
  - rewrite IH by lia. f_equal. lia.
Qed.

Lemma skipn_nth {X : Type} (d : X) (l : list X) (k : nat) :
  (k < List.length l)%nat -> skipn k l = nth k l d :: skipn (S k) l.
Proof.
  intros Hk. apply skipn_nth_error.
  apply nth_error_nth'. exact Hk.
Qed.

Lemma map_nth_iota {X Y : Type} (f : X -> Y) (d : X) (l : list X) (n : nat) :
  forall k, (k + n <= List.length l)%nat ->
    map (fun i => f (nth (Z.to_nat i) l d)) (iota (Z.of_nat k) n)
    = map f (firstn n (skipn k l)).
Proof.
  induction n as [ | n IH ]; intros k Hk; cbn [iota map firstn].
  - reflexivity.
  - rewrite (skipn_nth d l k) by lia. cbn [firstn map].
    rewrite Nat2Z.id. f_equal.
    replace (Z.of_nat k + 1) with (Z.of_nat (S k)) by lia.
    apply IH. lia.
Qed.

Lemma StronglySorted_map {X Y : Type} (R : X -> X -> Prop)
  (R' : Y -> Y -> Prop) (f : X -> Y) (l : list X) :
  (forall a b, In a l -> In b l -> R a b -> R' (f a) (f b)) ->
  StronglySorted R l -> StronglySorted R' (map f l).
Proof.
  induction l as [ | x l IH ]; intros Himp Hs; cbn.
  - constructor.
  - inversion Hs as [ | x' l' Hsl Hall ]; subst. constructor.
    + apply IH; [ | exact Hsl ].
      intros a b Ha Hb. apply Himp; right; assumption.
    + rewrite Forall_forall in *. intros y Hy.
      apply in_map_iff in Hy. destruct Hy as [b [<- Hb]].
      apply Himp; [ left; reflexivity | right; exact Hb | apply Hall, Hb ].
Qed.

Lemma descendingb_spec (l : list float) :
  descendingb l = true <-> descending l.
Proof.
  unfold descending. induction l as [ | a r IH ]; cbn.
  - split; [ constructor | reflexivity ].
  - rewrite andb_true_iff, forallb_forall, IH. split.
    + intros [Hall Hs]. constructor; [ exact Hs | ].
      apply Forall_forall. exact Hall.
    + intros Hs. inversion Hs as [ | a' r' Hsr Hall ]; subst.
      rewrite Forall_forall in Hall. split; assumption.
Qed.

Lemma in_firstn {X : Type} (n : nat) (l : list X) (x : X) :
  In x (firstn n l) -> In x l.
Proof.
  intros H. rewrite <- (firstn_skipn n l). apply in_or_app. left. exact H.
Qed.

Lemma in_skipn {X : Type} (n : nat) (l : list X) (x : X) :
  In x (skipn n l) -> In x l.
Proof.
  intros H. rewrite <- (firstn_skipn n l). apply in_or_app. right. exact H.
Qed.

Lemma no_nan_row_of (buf : list float) (vocab_size seq_idx : Z) :
  no_nan buf -> no_nan (row_of buf vocab_size seq_idx).
Proof.
  intros H x Hx. apply H. unfold row_of in Hx.
  apply in_firstn, in_skipn in Hx. exact Hx.
Qed.

(* ================================================================== *)
(** * [std::max_element] and [std::min_element] *)

Lemma max_element_from_in (l : list float) :
  forall best, In (max_element_from best l) (best :: l).
Proof.
  induction l as [ | x r IH ]; intros best; cbn [max_element_from].
  - left. reflexivity.
  - destruct (IH (if Float32.ltb best x then x else best)) as [H | H].
    + rewrite <- H. destruct (Float32.ltb best x); cbn; auto.
    + right. right. exact H.
Qed.

Lemma min_element_from_in (l : list float) :
  forall best, In (min_element_from best l) (best :: l).
Proof.
  induction l as [ | x r IH ]; intros best; cbn [min_element_from].
  - left. reflexivity.
  - destruct (IH (if Float32.ltb x best then x else best)) as [H | H].
    + rewrite <- H. destruct (Float32.ltb x best); cbn; auto.
    + right. right. exact H.
Qed.

Lemma max_element_from_upper (l : list float) :
  forall best, no_nan (best :: l) ->
    forall x, In x (best :: l) ->
      Float32.leb x (max_element_from best l) = true.
Proof.
  induction l as [ | y r IH ]; intros best Hnan x Hx; cbn [max_element_from].
  - destruct Hx as [<- | []]. apply Float32Facts.leb_refl, Hnan. left. reflexivity.
  - assert (Hb : Float32.is_nan best = false) by (apply Hnan; cbn; auto).
    assert (Hy : Float32.is_nan y = false) by (apply Hnan; cbn; auto).
    set (best' := if Float32.ltb best y then y else best).
    assert (Hnan' : no_nan (best' :: r)).
    { intros z [<- | Hz]; [ | apply Hnan; cbn; auto ].
      unfold best'. destruct (Float32.ltb best y); assumption. }
    assert (Hbest : Float32.leb best best' = true
                    /\ Float32.leb y best' = true).
    { unfold best'. destruct (Float32.ltb best y) eqn:Hlt.
      - split; [ apply Float32Facts.ltb_leb, Hlt | apply Float32Facts.leb_refl, Hy ].
      - split; [ apply Float32Facts.leb_refl, Hb | ].
        apply Float32Facts.ltb_false_leb; assumption. }
    assert (Hm : Float32.leb best' (max_element_from best' r) = true)
      by (apply IH; [ exact Hnan' | left; reflexivity ]).
    destruct Hx as [<- | [<- | Hx]].
    + eapply Float32Facts.leb_trans; [ apply Hbest | exact Hm ].
    + eapply Float32Facts.leb_trans; [ apply Hbest | exact Hm ].
    + apply IH; [ exact Hnan' | right; exact Hx ].
Qed.

Lemma min_element_from_lower (l : list float) :
  forall best, no_nan (best :: l) ->
    forall x, In x (best :: l) ->
      Float32.leb (min_element_from best l) x = true.
Proof.
  induction l as [ | y r IH ]; intros best Hnan x Hx; cbn [min_element_from].
  - destruct Hx as [<- | []]. apply Float32Facts.leb_refl, Hnan. left. reflexivity.
  - assert (Hb : Float32.is_nan best = false) by (apply Hnan; cbn; auto).
    assert (Hy : Float32.is_nan y = false) by (apply Hnan; cbn; auto).
    set (best' := if Float32.ltb y best then y else best).
    assert (Hnan' : no_nan (best' :: r)).
    { intros z [<- | Hz]; [ | apply Hnan; cbn; auto ].
      unfold best'. destruct (Float32.ltb y best); assumption. }
    assert (Hbest : Float32.leb best' best = true
                    /\ Float32.leb best' y = true).
    { unfold best'. destruct (Float32.ltb y best) eqn:Hlt.
      - split; [ apply Float32Facts.ltb_leb, Hlt | apply Float32Facts.leb_refl, Hy ].
      - split; [ apply Float32Facts.leb_refl, Hb | ].
        apply Float32Facts.ltb_false_leb; assumption. }
    assert (Hm : Float32.leb (min_element_from best' r) best' = true)
      by (apply IH; [ exact Hnan' | left; reflexivity ]).
    destruct Hx as [<- | [<- | Hx]].
    + eapply Float32Facts.leb_trans; [ exact Hm | apply Hbest ].
    + eapply Float32Facts.leb_trans; [ exact Hm | apply Hbest ].
    + apply IH; [ exact Hnan' | right; exact Hx ].
Qed.

Lemma no_nanb_spec (l : list float) : no_nanb l = true -> no_nan l.
Proof.
  unfold no_nanb, no_nan. rewrite forallb_forall.
  intros H x Hx. apply negb_true_iff, H, Hx.
Qed.

(* ================================================================== *)
(** * The reporter: the disabled path *)

(** C2.  When [MLC_DEBUG_LOGITS] is absent from the environment,
    [DebugPrintLogits] returns at once, whatever its arguments: it
    performs no event at all, so it reads no tensor (no device-to-host
    copy) and writes no line. *)
Theorem disabled_probe_is_a_no_op :
  forall (char_is_signed : bool)
    (partial_sort : (token_logit -> token_logit -> bool) -> nat ->
                    list token_logit -> list token_logit)
    (p : Process) (logits : NDArray) (phase : string)
    (request_ids : list string) (top_k : Z),
    getenv (environ p) MLC_DEBUG_LOGITS = None ->
    let run :=
      DebugPrintLogits char_is_signed partial_sort p logits phase
        request_ids top_k in
    run = ([], Returned tt)
    /\ tensor_reads (trace run) = O
    /\ cout_lines (trace run) = [].
Proof.
  intros cs ps p logits phase ids top_k Habsent.
  unfold DebugPrintLogits, IsLogitDebugEnabled. rewrite Habsent.
  cbn. repeat split.
Qed.

Lemma disabled_probe_is_a_no_op_witness :
  getenv (environ (start_process [("HOME", "/root")])) MLC_DEBUG_LOGITS = None
  /\ DebugPrintLogits true insertion_partial_sort
       (start_process [("HOME", "/root")]) sample_logits "DECODE" ["r0"] 3
     = ([], Returned tt).
Proof.
  split; [ reflexivity | ].
  apply (disabled_probe_is_a_no_op true insertion_partial_sort
           (start_process [("HOME", "/root")]) sample_logits "DECODE"
           ["r0"] 3).
  reflexivity.
Defined.

(* ================================================================== *)
(** * The reporter: the enabled path *)

Lemma sample_call_well_defined (env : list (string * string)) (t : Tokenizer) :
  getenv env MLC_DEBUG_LOGITS <> None ->
  well_defined_call (DebugRegisterTokenizer t (start_process env))
    sample_logits 3 2 5.
Proof.
  intros Hen. constructor; try reflexivity; try (cbn; lia);
    try (unfold INT_MAX; lia).
  unfold IsLogitDebugEnabled. cbn [environ DebugRegisterTokenizer start_process].
  destruct (getenv env MLC_DEBUG_LOGITS); [ reflexivity | contradiction ].
Qed.

(** C4 (amended).  A call with defined behaviour (the probe enabled, a
    tensor of two dimensions whose sizes fit in [int], [top_k] not
    negative and, in verbose mode, a vocabulary that is not empty) prints
    one block per sequence of the batch, whatever the length of the list
    of request identifiers: the block of sequence [seq_idx] is headed by
    the identifier at that index when the list has one, and by
    ["unknown"] otherwise. *)
Theorem one_block_per_sequence :
  forall (char_is_signed : bool)
    (partial_sort : (token_logit -> token_logit -> bool) -> nat ->
                    list token_logit -> list token_logit)
    (p : Process) (logits : NDArray) (phase : string)
    (request_ids : list string) (top_k batch_size vocab_size : Z),
    partial_sort_conforms partial_sort ->
    well_defined_call p logits top_k batch_size vocab_size ->
    let run :=
      DebugPrintLogits char_is_signed partial_sort p logits phase
        request_ids top_k in
    let headers := request_headers (cout_lines (trace run)) in
    result run = Returned tt
    /\ Z.of_nat (List.length headers) = batch_size
    /\ forall seq_idx, 0 <= seq_idx < batch_size ->
         (forall id, nth_error request_ids (Z.to_nat seq_idx) = Some id ->
            nth_error headers (Z.to_nat seq_idx) = Some (id, seq_idx))
         /\ (Z.of_nat (List.length request_ids) <= seq_idx ->
             nth_error headers (Z.to_nat seq_idx) = Some ("unknown", seq_idx)).
Proof.
  intros cs ps p logits phase ids top_k b v Hps Hwd run headers.
  subst headers run.
  rewrite (DebugPrintLogits_returns cs ps Hps _ _ phase ids _ _ _ Hwd).
  cbn [trace result fst snd cout_lines].
  rewrite cout_lines_map, request_headers_report.
  destruct Hwd as [_ _ Hb _ _ _ _ _].
  split; [ reflexivity | ].
  split; [ rewrite length_map, iota_length; lia | ].
  intros seq_idx Hs.
  assert (Hnth : nth_error
                   (map (fun i => (request_id_of ids i, i))
                      (iota 0 (Z.to_nat b))) (Z.to_nat seq_idx)
                 = Some (request_id_of ids seq_idx, seq_idx)).
  { rewrite nth_error_map, nth_error_iota by lia. cbn.
    replace (Z.of_nat (Z.to_nat seq_idx)) with seq_idx by lia. reflexivity. }
  rewrite Hnth. unfold request_id_of. split.
  - intros id Hid. rewrite Hid. reflexivity.
  - intros Hlen.
    destruct (nth_error ids (Z.to_nat seq_idx)) as [id | ] eqn:Hid;
      [ | reflexivity ].
    assert (Hsome : nth_error ids (Z.to_nat seq_idx) <> None)
      by (rewrite Hid; discriminate).
    apply nth_error_Some in Hsome. lia.
Qed.

Lemma one_block_per_sequence_witness :
  let run :=
    DebugPrintLogits true insertion_partial_sort (start_process env_plain)
      sample_logits "DECODE" ["r0"] 3 in
  partial_sort_conforms (@insertion_partial_sort token_logit)
  /\ well_defined_call (start_process env_plain) sample_logits 3 2 5
  /\ result run = Returned tt
  /\ request_headers (cout_lines (trace run)) = [("r0", 0); ("unknown", 1)].
Proof.
  split; [ apply insertion_partial_sort_conforms | ].
  split; [ apply (sample_call_well_defined env_plain None); discriminate | ].
  destruct (one_block_per_sequence true insertion_partial_sort
              (start_process env_plain) sample_logits "DECODE" ["r0"] 3 2 5
              (insertion_partial_sort_conforms token_logit)
              (sample_call_well_defined env_plain None
                 ltac:(discriminate)))
    as [Hret _].
  split; [ exact Hret | reflexivity ].
Defined.

(** C4, as stated, fails on a batch with an empty vocabulary in verbose
    mode: for a tensor of shape (2, 0) the call prints the header of the
    first sequence and then dereferences the end iterator that
    [std::max_element] returns for the empty row; one block is printed
    for a batch of two sequences. *)
Lemma verbose_empty_vocabulary_prints_one_block :
  let p := start_process env_verbose in
  let logits := {| device := kDLCPU; shape := [2; 0]; data := [] |} in
  let run :=
    DebugPrintLogits true insertion_partial_sort p logits "DECODE"
      ["r0"; "r1"] 3 in
  IsLogitDebugEnabled p = true
  /\ IsLogitDebugVerbose p = true
  /\ shape logits = [2; 0]
  /\ Z.of_nat (List.length (data logits)) = 2 * 0
  /\ result run = Undefined
  /\ request_headers (cout_lines (trace run)) = [("r0", 0)]
  /\ List.length (request_headers (cout_lines (trace run))) = 1%nat.
Proof.
  repeat split.
Qed.

Section TopK.

Variable char_is_signed : bool.
Variable partial_sort :
  (token_logit -> token_logit -> bool) -> nat -> list token_logit ->
  list token_logit.
Hypothesis partial_sort_ok : partial_sort_conforms partial_sort.

(** The block of a sequence, as printed by a call with defined
    behaviour. *)
Lemma printed_block (p : Process) (logits : NDArray) (phase : string)
  (request_ids : list string) (top_k batch_size vocab_size seq_idx : Z) :
  well_defined_call p logits top_k batch_size vocab_size ->
  0 <= seq_idx < batch_size ->
  block_of_seq seq_idx
    (cout_lines
       (trace (DebugPrintLogits char_is_signed partial_sort p logits phase
                 request_ids top_k)))
  = sequence_body char_is_signed partial_sort (data logits) batch_size
      vocab_size (IsLogitDebugVerbose p) (DebugGetTokenizer p) top_k seq_idx.
Proof.
  intros Hwd Hs.
  rewrite (DebugPrintLogits_returns char_is_signed partial_sort
             partial_sort_ok _ _ phase request_ids _ _ _ Hwd).
  cbn [trace fst cout_lines]. rewrite cout_lines_map.
  apply block_of_seq_report, Hs.
Qed.

Lemma ranked_perm (top_k : Z) (row : list float) :
  0 <= top_k -> no_nan row ->
  Permutation (ranked partial_sort top_k row) (enumerate_from 0 row).
Proof.
  intros Hk Hnan. unfold ranked.
  apply (partial_sort_permutes _ _ partial_sort_ok).
  - rewrite enumerate_from_length. lia.
  - apply by_logit_desc_strict_weak_order.
    rewrite map_snd_enumerate_from. exact Hnan.
Qed.

Lemma ranked_sorted (top_k : Z) (row : list float) :
  0 <= top_k -> no_nan row ->
  sorted_wrt by_logit_desc
    (firstn (Z.to_nat (Z.min top_k (Z.of_nat (List.length row))))
       (ranked partial_sort top_k row)).
Proof.
  intros Hk Hnan. unfold ranked.
  apply (partial_sort_sorted _ _ partial_sort_ok).
  - rewrite enumerate_from_length. lia.
  - apply by_logit_desc_strict_weak_order.
    rewrite map_snd_enumerate_from. exact Hnan.
Qed.

(** The scores of the entries printed for a row without NaN descend. *)
Lemma ranked_scores_descend (top_k : Z) (row : list float) :
  0 <= top_k -> no_nan row ->
  descending
    (map snd
       (firstn (Z.to_nat (Z.min top_k (Z.of_nat (List.length row))))
          (ranked partial_sort top_k row))).
Proof.
  intros Hk Hnan. unfold descending.
  apply (StronglySorted_map (fun a b => by_logit_desc b a = false));
    [ | apply ranked_sorted; assumption ].
  assert (Hin : forall a,
             In a (firstn (Z.to_nat (Z.min top_k (Z.of_nat (List.length row))))
                     (ranked partial_sort top_k row)) ->
             Float32.is_nan (snd a) = false).
  { intros a Ha. apply in_firstn in Ha.
    apply (Permutation_in _ (ranked_perm top_k row Hk Hnan)) in Ha.
    apply Hnan. rewrite <- (map_snd_enumerate_from row 0).
    apply in_map, Ha. }
  intros a b Ha Hb Hab. unfold by_logit_desc, Float32.gtb in Hab.
  apply Float32Facts.ltb_false_leb; auto.
Qed.

Lemma printed_scores (t : Tokenizer) (verbose : bool)
  (v : list token_logit) (n : nat) :
  (n <= List.length v)%nat ->
  scores (map (entry_of char_is_signed t verbose v) (iota 0 n))
  = map snd (firstn n v).
Proof.
  intros Hn. unfold scores. rewrite map_map.
  change (fun x => entry_logit (entry_of char_is_signed t verbose v x))
    with (fun i => snd (nth (Z.to_nat i) v (0, Float32.zero))).
  assert (H0 : (0 + n <= List.length v)%nat) by lia.
  exact (map_nth_iota snd (0, Float32.zero) v n 0 H0).
Qed.

End TopK.

(** C3 (amended).  For every row of a rank-2 tensor, when [top_k] is
    not negative (and the call has defined behaviour), exactly
    [min(top_k, vocab_size)] entries are printed for the row, ranked
    [0, 1, ...]; and when the row holds no NaN their scores descend: each
    one is at least every later one.  This holds for every algorithm
    behind [std::partial_sort] that conforms to the standard. *)
Theorem top_k_entries_descend :
  forall (char_is_signed : bool)
    (partial_sort : (token_logit -> token_logit -> bool) -> nat ->
                    list token_logit -> list token_logit)
    (p : Process) (logits : NDArray) (phase : string)
    (request_ids : list string) (top_k batch_size vocab_size seq_idx : Z),
    partial_sort_conforms partial_sort ->
    well_defined_call p logits top_k batch_size vocab_size ->
    0 <= seq_idx < batch_size ->
    let run :=
      DebugPrintLogits char_is_signed partial_sort p logits phase
        request_ids top_k in
    let es := entries_of (block_of_seq seq_idx (cout_lines (trace run))) in
    result run = Returned tt
    /\ Z.of_nat (List.length es) = Z.min top_k vocab_size
    /\ map entry_rank es = iota 0 (Z.to_nat (Z.min top_k vocab_size))
    /\ (no_nan (row_of (data logits) vocab_size seq_idx) ->
        descending (scores es)).
Proof.
  intros cs ps p logits phase ids top_k b v seq_idx Hps Hwd Hs run es.
  subst es run.
  rewrite (printed_block cs ps Hps _ _ phase ids _ _ _ _ Hwd Hs).
  rewrite (DebugPrintLogits_returns cs ps Hps _ _ phase ids _ _ _ Hwd).
  rewrite entries_of_sequence_body.
  destruct Hwd as [_ _ Hb Hv _ Hdata Hk _].
  pose proof (row_of_length _ _ _ _ Hdata (proj1 Hv) Hs) as Hrow.
  split; [ reflexivity | ].
  split; [ rewrite length_map, iota_length; lia | ].
  split.
  - rewrite map_map. cbn [entry_rank entry_of]. apply map_id.
  - intros Hnan.
    rewrite printed_scores by (rewrite (ranked_length ps Hps); lia).
    rewrite <- Hrow at 1.
    apply (ranked_scores_descend ps Hps); assumption.
Qed.

Lemma top_k_entries_descend_witness :
  let run :=
    DebugPrintLogits true insertion_partial_sort (start_process env_plain)
      sample_logits "DECODE" [] 3 in
  let es := entries_of (block_of_seq 1 (cout_lines (trace run))) in
  partial_sort_conforms (@insertion_partial_sort token_logit)
  /\ well_defined_call (start_process env_plain) sample_logits 3 2 5
  /\ no_nan (row_of (data sample_logits) 5 1)
  /\ Z.of_nat (List.length es) = 3
  /\ descending (scores es).
Proof.
  assert (Hps : partial_sort_conforms (@insertion_partial_sort token_logit))
    by apply insertion_partial_sort_conforms.
  assert (Hwd : well_defined_call (start_process env_plain) sample_logits 3 2 5)
    by (apply (sample_call_well_defined env_plain None); discriminate).
  assert (Hnan : no_nan (row_of (data sample_logits) 5 1))
    by (apply no_nanb_spec; reflexivity).
  split; [ exact Hps | ]. split; [ exact Hwd | ]. split; [ exact Hnan | ].
  destruct (top_k_entries_descend true insertion_partial_sort
              (start_process env_plain) sample_logits "DECODE" [] 3 2 5 1
              Hps Hwd ltac:(lia)) as [_ [Hlen [_ Hdesc]]].
  split; [ exact Hlen | exact (Hdesc Hnan) ].
Defined.

(** C3, as stated, fails on a row of NaN scores: with [top_k = 2] the
    two entries of the row [NaN, NaN] are printed, and their scores are
    not in descending order, since [NaN >= NaN] is false. *)
Lemma nan_row_entries_do_not_descend :
  let run :=
    DebugPrintLogits true insertion_partial_sort (start_process env_plain)
      nan_logits "DECODE" [] 2 in
  let es := entries_of (block_of_seq 0 (cout_lines (trace run))) in
  well_defined_call (start_process env_plain) nan_logits 2 1 2
  /\ result run = Returned tt
  /\ scores es = [Float32.nan; Float32.nan]
  /\ descendingb (scores es) = false
  /\ ~ descending (scores es).
Proof.
  split.
  { constructor; try reflexivity; try (cbn; lia); try (unfold INT_MAX; lia). }
  split; [ reflexivity | ].
  split; [ reflexivity | ].
  split; [ reflexivity | ].
  intros H. apply descendingb_spec in H. discriminate H.
Qed.

(** The failure does not depend on the algorithm behind
    [std::partial_sort]: on the row [NaN, NaN] the comparator is a
    strict weak ordering (nothing is ordered before anything), so every
    conforming algorithm prints the two NaN scores. *)
Lemma nan_row_scores_any_partial_sort
  (char_is_signed : bool)
  (partial_sort : (token_logit -> token_logit -> bool) -> nat ->
                  list token_logit -> list token_logit) :
  partial_sort_conforms partial_sort ->
  scores
    (entries_of
       (block_of_seq 0
          (cout_lines
             (trace (DebugPrintLogits char_is_signed partial_sort
                       (start_process env_plain) nan_logits "DECODE" [] 2)))))
  = [Float32.nan; Float32.nan].
Proof.
  intros Hps.
  assert (Hwd : well_defined_call (start_process env_plain) nan_logits 2 1 2).
  { constructor; try reflexivity; try (cbn; lia); try (unfold INT_MAX; lia). }
  rewrite (printed_block char_is_signed partial_sort Hps _ _ "DECODE" []
             _ _ _ 0 Hwd) by lia.
  rewrite entries_of_sequence_body.
  change (Z.to_nat (Z.min 2 2)) with 2%nat.
  change (row_of (data nan_logits) 2 0) with [Float32.nan; Float32.nan].
  rewrite printed_scores by (rewrite (ranked_length partial_sort Hps); cbn; lia).
  set (l := [(0, Float32.nan); (1, Float32.nan)] : list token_logit).
  assert (Hswo : strict_weak_order_on by_logit_desc l).
  { unfold by_logit_desc, Float32.gtb. repeat split.
    - intros a _. apply Float32Facts.ltb_irrefl.
    - intros a b c _ _ _ Hab Hbc. eapply Float32Facts.ltb_trans; eassumption.
    - intros a b c Ha _ _ _ _.
      destruct Ha as [<- | [<- | []]]; apply Float32Facts.ltb_nan_r. }
  assert (Hperm : Permutation (ranked partial_sort 2 [Float32.nan; Float32.nan]) l).
  { unfold ranked. apply (partial_sort_permutes _ _ Hps); [ cbn; lia | exact Hswo ]. }
  pose proof (Permutation_length Hperm) as Hlen.
  assert (Hall : forall a, In a (ranked partial_sort 2 [Float32.nan; Float32.nan]) ->
                           snd a = Float32.nan).
  { intros a Ha. apply (Permutation_in _ Hperm) in Ha.
    destruct Ha as [<- | [<- | []]]; reflexivity. }
  destruct (ranked partial_sort 2 [Float32.nan; Float32.nan])
    as [ | a [ | b [ | c r ]]]; try discriminate Hlen.
  cbn. rewrite (Hall a), (Hall b); cbn; auto.
Qed.

(* ================================================================== *)
(** * The statistics of verbose mode *)

(** C5 (amended).  In verbose mode a call with defined behaviour prints,
    for every row, one statistics line computed over the full row of
    [vocab_size] scores: [max] and [min] are scores of the row and, when
    the row holds no NaN, bound every score of the row ([min <= x <= max],
    hence [min <= max]); [mean] is the single-precision quotient by
    [vocab_size] of the single-precision sum of all the scores of the
    row, added from the left starting from zero. *)
Theorem statistics_cover_the_full_row :
  forall (char_is_signed : bool)
    (partial_sort : (token_logit -> token_logit -> bool) -> nat ->
                    list token_logit -> list token_logit)
    (p : Process) (logits : NDArray) (phase : string)
    (request_ids : list string) (top_k batch_size vocab_size seq_idx : Z),
    partial_sort_conforms partial_sort ->
    well_defined_call p logits top_k batch_size vocab_size ->
    IsLogitDebugVerbose p = true ->
    0 <= seq_idx < batch_size ->
    let run :=
      DebugPrintLogits char_is_signed partial_sort p logits phase
        request_ids top_k in
    let row := row_of (data logits) vocab_size seq_idx in
    exists max_logit min_logit mean_logit,
      stats_of (block_of_seq seq_idx (cout_lines (trace run)))
      = [(max_logit, min_logit, mean_logit)]
      /\ Z.of_nat (List.length row) = vocab_size
      /\ In max_logit row
      /\ In min_logit row
      /\ mean_logit
         = Float32.div (fold_left Float32.add row Float32.zero)
                       (Float32.of_int vocab_size)
      /\ (no_nan row ->
          Float32.leb min_logit max_logit = true
          /\ forall x, In x row ->
               Float32.leb min_logit x = true
               /\ Float32.leb x max_logit = true).
Proof.
  intros cs ps p logits phase ids top_k b v seq_idx Hps Hwd Hverbose Hs run row.
  subst run.
  rewrite (printed_block cs ps Hps _ _ phase ids _ _ _ _ Hwd Hs).
  rewrite stats_of_sequence_body, Hverbose.
  destruct Hwd as [_ _ Hb Hv _ Hdata Hk Hstats].
  pose proof (row_of_length _ _ _ _ Hdata (proj1 Hv) Hs) as Hrow.
  fold row in Hrow |- *. specialize (Hstats Hverbose).
  destruct row as [ | x r ] eqn:Erow; [ cbn in Hrow; lia | ].
  unfold stats_line. cbn [hd tl].
  eexists _, _, _. split; [ reflexivity | ].
  split; [ exact Hrow | ].
  split; [ apply max_element_from_in | ].
  split; [ apply min_element_from_in | ].
  split; [ unfold accumulate; rewrite Hrow; reflexivity | ].
  intros Hnan.
  assert (Hbounds : forall y, In y (x :: r) ->
             Float32.leb (min_element_from x r) y = true
             /\ Float32.leb y (max_element_from x r) = true).
  { intros y Hy. split;
      [ apply min_element_from_lower | apply max_element_from_upper ];
      assumption. }
  split; [ | exact Hbounds ].
  apply (Float32Facts.leb_trans _ x).
  - apply Hbounds. left. reflexivity.
  - apply Hbounds. left. reflexivity.
Qed.

Lemma statistics_cover_the_full_row_witness :
  let p := DebugRegisterTokenizer sample_tokenizer (start_process env_verbose) in
  let run :=
    DebugPrintLogits true insertion_partial_sort p sample_logits "DECODE"
      ["r0"] 3 in
  partial_sort_conforms (@insertion_partial_sort token_logit)
  /\ well_defined_call p sample_logits 3 2 5
  /\ IsLogitDebugVerbose p = true
  /\ exists max_logit min_logit mean_logit,
       stats_of (block_of_seq 1 (cout_lines (trace run)))
       = [(max_logit, min_logit, mean_logit)]
       /\ In max_logit (row_of (data sample_logits) 5 1)
       /\ In min_logit (row_of (data sample_logits) 5 1).
Proof.
  assert (Hps : partial_sort_conforms (@insertion_partial_sort token_logit))
    by apply insertion_partial_sort_conforms.
  assert (Hwd : well_defined_call
                  (DebugRegisterTokenizer sample_tokenizer
                     (start_process env_verbose)) sample_logits 3 2 5)
    by (apply sample_call_well_defined; discriminate).
  split; [ exact Hps | ]. split; [ exact Hwd | ]. split; [ reflexivity | ].
  destruct (statistics_cover_the_full_row true insertion_partial_sort
              (DebugRegisterTokenizer sample_tokenizer
                 (start_process env_verbose))
              sample_logits "DECODE" ["r0"] 3 2 5 1 Hps Hwd eq_refl
              ltac:(lia))
    as [mx [mn [mean [Hstats [_ [Hmx [Hmn _]]]]]]].
  exists mx, mn, mean. repeat split; assumption.
Defined.

(** C5, as stated, fails: for the row [1000.4f, 1000.4f, 1000.4f] the
    sum of the three scores, [3001.2000732...], is rounded upwards to
    [3001.2002], and the quotient by 3 is rounded to
    [16390555 * 2^-14 = 1000.40008...], the float just above the maximum
    [1000.4f = 16390554 * 2^-14 = 1000.40002...] of the row.  The line
    printed reads [max=1000.4000 min=1000.4000 mean=1000.4001]. *)
Lemma mean_above_max_of_equal_scores :
  let p := start_process env_verbose in
  let run :=
    DebugPrintLogits true insertion_partial_sort p equal_logits "DECODE"
      [] default_top_k in
  let mean_logit := S754_finite false 16390555 (-14) in
  well_defined_call p equal_logits default_top_k 1 3
  /\ f1000_4 = S754_finite false 16390554 (-14)
  /\ valid_binary Float32.prec Float32.emax f1000_4 = true
  /\ result run = Returned tt
  /\ stats_of (block_of_seq 0 (cout_lines (trace run)))
     = [(f1000_4, f1000_4, mean_logit)]
  /\ Float32.leb mean_logit f1000_4 = false
  /\ Float32.ltb f1000_4 mean_logit = true
  /\ Float32.fixed4 f1000_4 = Some 10004000
  /\ Float32.fixed4 mean_logit = Some 10004001.
Proof.
  split.
  { constructor; try reflexivity; try (cbn; lia); try (unfold INT_MAX; lia);
      try (unfold default_top_k; lia). }
  repeat split.
Qed.

(* ================================================================== *)
(** * Failures of the tokenizer *)

(** A failing lookup leaves the entry without token string; the entry is
    printed all the same and nothing propagates. *)
Lemma print_entry_absorbs_failure (char_is_signed : bool)
  (obj : TokenizerObj) (v : list token_logit) (i : Z) :
  0 <= i < Z.of_nat (List.length v) ->
  IdToToken obj (fst (nth (Z.to_nat i) v (0, Float32.zero))) = None ->
  print_entry char_is_signed (Some obj) true v i
  = ([EvCout (TopEntry i (fst (nth (Z.to_nat i) v (0, Float32.zero)))
                         (snd (nth (Z.to_nat i) v (0, Float32.zero))) None)],
     Returned tt).
Proof.
  intros Hi Hfail. rewrite print_entry_returns by exact Hi.
  unfold entry_line, token_of. rewrite Hfail. reflexivity.
Qed.

(** C7.  With a tokenizer registered and verbose mode on, a call with
    defined behaviour returns normally whatever [IdToToken] does: no
    exception propagates, every row still gets its
    [min(top_k, vocab_size)] entries, an entry whose lookup throws is
    printed with its rank, token id and score but without token string,
    and an entry whose lookup succeeds carries the escaped token. *)
Theorem tokenizer_failures_are_absorbed :
  forall (char_is_signed : bool)
    (partial_sort : (token_logit -> token_logit -> bool) -> nat ->
                    list token_logit -> list token_logit)
    (p : Process) (obj : TokenizerObj) (logits : NDArray) (phase : string)
    (request_ids : list string) (top_k batch_size vocab_size : Z),
    partial_sort_conforms partial_sort ->
    well_defined_call p logits top_k batch_size vocab_size ->
    DebugGetTokenizer p = Some obj ->
    IsLogitDebugVerbose p = true ->
    let run :=
      DebugPrintLogits char_is_signed partial_sort p logits phase
        request_ids top_k in
    result run = Returned tt
    /\ throws run = false
    /\ forall seq_idx, 0 <= seq_idx < batch_size ->
         let es :=
           entries_of (block_of_seq seq_idx (cout_lines (trace run))) in
         Z.of_nat (List.length es) = Z.min top_k vocab_size
         /\ forall e, In e es ->
              (IdToToken obj (entry_token_id e) = None ->
               entry_token e = None)
              /\ (forall token_str,
                    IdToToken obj (entry_token_id e) = Some token_str ->
                    entry_token e
                    = Some (escape_token char_is_signed token_str)).
Proof.
  intros cs ps p obj logits phase ids top_k b v Hps Hwd Htok Hverbose run.
  split; [ | split ].
  - subst run.
    rewrite (DebugPrintLogits_returns cs ps Hps _ _ phase ids _ _ _ Hwd).
    reflexivity.
  - apply throws_DebugPrintLogits.
  - intros seq_idx Hs es. subst es run.
    rewrite (printed_block cs ps Hps _ _ phase ids _ _ _ _ Hwd Hs).
    rewrite entries_of_sequence_body, Htok, Hverbose.
    destruct Hwd as [_ _ _ Hv _ _ Hk _].
    split; [ rewrite length_map, iota_length; lia | ].
    intros e He. apply in_map_iff in He. destruct He as [i [<- _]].
    cbn [entry_of entry_token entry_token_id token_of]. split.
    + intros ->. reflexivity.
    + intros token_str ->. reflexivity.
Qed.

Lemma tokenizer_failures_are_absorbed_witness :
  let obj :=
    {| IdToToken := fun id =>
         if id =? 2 then None
         else if id =? 4 then Some (String newline "a")
         else Some "tok" |} in
  let p := DebugRegisterTokenizer (Some obj) (start_process env_verbose) in
  let run :=
    DebugPrintLogits true insertion_partial_sort p sample_logits "DECODE"
      ["r0"] 3 in
  partial_sort_conforms (@insertion_partial_sort token_logit)
  /\ well_defined_call p sample_logits 3 2 5
  /\ IsLogitDebugVerbose p = true
  /\ result run = Returned tt
  /\ map (fun e => (entry_token_id e, entry_token e))
         (entries_of (block_of_seq 0 (cout_lines (trace run))))
     = [(1, Some "tok"); (4, Some (String backslash "na")); (2, None)].
Proof.
  intros obj p run.
  assert (Hps : partial_sort_conforms (@insertion_partial_sort token_logit))
    by apply insertion_partial_sort_conforms.
  assert (Hwd : well_defined_call p sample_logits 3 2 5)
    by (apply sample_call_well_defined; discriminate).
  split; [ exact Hps | ]. split; [ exact Hwd | ]. split; [ reflexivity | ].
  destruct (tokenizer_failures_are_absorbed true insertion_partial_sort p obj
              sample_logits "DECODE" ["r0"] 3 2 5 Hps Hwd eq_refl eq_refl)
    as [Hret _].
  split; [ exact Hret | reflexivity ].
Defined.

(* ================================================================== *)
(** * Further properties of the report *)

Lemma map_fst_enumerate_from (l : list float) :
  forall i, map fst (enumerate_from i l) = iota i (List.length l).
Proof. induction l; intros; cbn; [ | f_equal ]; auto. Qed.

Lemma NoDup_iota (n : nat) : forall start, NoDup (iota start n).
Proof.
  induction n as [ | n IH ]; intros start; cbn [iota]; constructor.
  - rewrite in_iota. lia.
  - apply IH.
Qed.

Lemma in_enumerate_from (l : list float) :
  forall start i x,
    In (i, x) (enumerate_from start l) <->
    start <= i /\ nth_error l (Z.to_nat (i - start)) = Some x.
Proof.
  induction l as [ | y l IH ]; intros start i x; cbn [enumerate_from In].
  - split; [ intros [] | intros [_ H] ].
    destruct (Z.to_nat (i - start)); discriminate H.
  - rewrite IH. split.
    + intros [H | [Hle Hnth]].
      * injection H as <- <-. split; [ lia | ].
        rewrite Z.sub_diag. reflexivity.
      * split; [ lia | ].
        replace (Z.to_nat (i - start)) with (S (Z.to_nat (i - (start + 1))))
          by lia.
        exact Hnth.
    + intros [Hle Hnth].
      destruct (Z.eq_dec start i) as [<- | Hne].
      * left. rewrite Z.sub_diag in Hnth. cbn in Hnth.
        injection Hnth as <-. reflexivity.
      * right. split; [ lia | ].
        replace (Z.to_nat (i - start)) with (S (Z.to_nat (i - (start + 1))))
          in Hnth by lia.
        exact Hnth.
Qed.

Lemma printed_pairs (char_is_signed : bool) (t : Tokenizer) (verbose : bool)
  (v : list token_logit) (n : nat) :
  (n <= List.length v)%nat ->
  map (fun e => (entry_token_id e, entry_logit e))
      (map (entry_of char_is_signed t verbose v) (iota 0 n))
  = firstn n v.
Proof.
  intros Hn. rewrite map_map.
  assert (H0 : (0 + n <= List.length v)%nat) by lia.
  transitivity (map (fun a : token_logit => (fst a, snd a)) (firstn n v)).
  - exact (map_nth_iota (fun a : token_logit => (fst a, snd a))
             (0, Float32.zero) v n 0 H0).
  - rewrite <- (map_id (firstn n v)) at 2.
    apply map_ext. intros [i x]. reflexivity.
Qed.

(** X1.  For a row without NaN, the entries printed are the highest
    scores of the row: every entry is a token of the row with its own
    score, no token is printed twice, and every token of the row that is
    not printed has a score at most that of every printed entry. *)
Theorem printed_entries_are_the_top_scores :
  forall (char_is_signed : bool)
    (partial_sort : (token_logit -> token_logit -> bool) -> nat ->
                    list token_logit -> list token_logit)
    (p : Process) (logits : NDArray) (phase : string)
    (request_ids : list string) (top_k batch_size vocab_size seq_idx : Z),
    partial_sort_conforms partial_sort ->
    well_defined_call p logits top_k batch_size vocab_size ->
    0 <= seq_idx < batch_size ->
    no_nan (row_of (data logits) vocab_size seq_idx) ->
    let run :=
      DebugPrintLogits char_is_signed partial_sort p logits phase
        request_ids top_k in
    let es := entries_of (block_of_seq seq_idx (cout_lines (trace run))) in
    let row := row_of (data logits) vocab_size seq_idx in
    (forall e, In e es ->
       0 <= entry_token_id e
       /\ nth_error row (Z.to_nat (entry_token_id e)) = Some (entry_logit e))
    /\ NoDup (map entry_token_id es)
    /\ (forall j x,
          nth_error row j = Some x ->
          ~ In (Z.of_nat j) (map entry_token_id es) ->
          forall e, In e es -> Float32.leb x (entry_logit e) = true).
Proof.
  intros cs ps p logits phase ids top_k b v seq_idx Hps Hwd Hs Hnan run es row.
  subst es run.
  rewrite (printed_block cs ps Hps _ _ phase ids _ _ _ _ Hwd Hs).
  rewrite entries_of_sequence_body. fold row in Hnan |- *.
  destruct Hwd as [_ _ Hb Hv _ Hdata Hk _].
  pose proof (row_of_length _ _ _ _ Hdata (proj1 Hv) Hs) as Hrow.
  fold row in Hrow.
  set (t := DebugGetTokenizer p). set (verbose := IsLogitDebugVerbose p).
  set (k := Z.to_nat (Z.min top_k v)).
  set (R := ranked ps top_k row).
  assert (Hk' : (k <= List.length R)%nat)
    by (unfold R; rewrite (ranked_length ps Hps); lia).
  pose proof (printed_pairs cs t verbose R k Hk') as Hpairs.
  pose proof (ranked_perm ps Hps top_k row Hk Hnan) as Hperm. fold R in Hperm.
  set (es := map (entry_of cs t verbose R) (iota 0 k)) in *.
  assert (Hids : map entry_token_id es = map fst (firstn k R)).
  { rewrite <- Hpairs, map_map. reflexivity. }
  assert (Hin : forall e, In e es ->
                  In (entry_token_id e, entry_logit e) (firstn k R)).
  { intros e He. rewrite <- Hpairs.
    apply (in_map (fun e => (entry_token_id e, entry_logit e))), He. }
  assert (Hrow_in : forall a, In a R ->
            0 <= fst a /\ nth_error row (Z.to_nat (fst a)) = Some (snd a)).
  { intros [i x] Ha. apply (Permutation_in _ Hperm) in Ha.
    apply in_enumerate_from in Ha. rewrite Z.sub_0_r in Ha. exact Ha. }
  split; [ | split ].
  - intros e He. apply (Hrow_in (entry_token_id e, entry_logit e)).
    eapply in_firstn, Hin, He.
  - rewrite Hids.
    assert (Hnd : NoDup (map fst R)).
    { apply (Permutation_NoDup (l := map fst (enumerate_from 0 row))).
      - apply Permutation_map, Permutation_sym, Hperm.
      - rewrite map_fst_enumerate_from. apply NoDup_iota. }
    rewrite <- (firstn_skipn k R), map_app in Hnd.
    apply NoDup_app_remove_r in Hnd. exact Hnd.
  - intros j x Hj Hnot e He.
    assert (HjR : In (Z.of_nat j, x) R).
    { apply (Permutation_in _ (Permutation_sym Hperm)).
      apply in_enumerate_from. split; [ lia | ].
      rewrite Z.sub_0_r, Nat2Z.id. exact Hj. }
    rewrite <- (firstn_skipn k R) in HjR. apply in_app_or in HjR.
    destruct HjR as [Hfirst | Hrest].
    { exfalso. apply Hnot. rewrite Hids.
      apply (in_map fst) in Hfirst. exact Hfirst. }
    assert (Hcomp : by_logit_desc (Z.of_nat j, x)
                      (entry_token_id e, entry_logit e) = false).
    { unfold R, ranked in Hrest, Hin.
      assert (Hk'' : k = Z.to_nat (Z.min top_k (Z.of_nat (List.length row))))
        by (unfold k; rewrite Hrow; reflexivity).
      rewrite Hk'' in Hrest, Hin.
      refine (partial_sort_smallest _ _ Hps by_logit_desc _ _ _ _ _ _ (Hin e He) Hrest).
      - rewrite enumerate_from_length. lia.
      - apply by_logit_desc_strict_weak_order.
        rewrite map_snd_enumerate_from. exact Hnan. }
    unfold by_logit_desc, Float32.gtb in Hcomp. cbn [snd] in Hcomp.
    apply Float32Facts.ltb_false_leb; [ | | exact Hcomp ].
    + apply Hnan.
      destruct (Hrow_in (entry_token_id e, entry_logit e)) as [_ Hn].
      * eapply in_firstn, Hin, He.
      * apply (nth_error_In _ _ Hn).
    + apply Hnan, (nth_error_In _ _ Hj).
Qed.

Lemma printed_entries_are_the_top_scores_witness :
  let run :=
    DebugPrintLogits true insertion_partial_sort (start_process env_plain)
      sample_logits "DECODE" [] 3 in
  let es := entries_of (block_of_seq 0 (cout_lines (trace run))) in
  partial_sort_conforms (@insertion_partial_sort token_logit)
  /\ well_defined_call (start_process env_plain) sample_logits 3 2 5
  /\ no_nan (row_of (data sample_logits) 5 0)
  /\ map entry_token_id es = [1; 4; 2]
  /\ NoDup (map entry_token_id es).
Proof.
  assert (Hps : partial_sort_conforms (@insertion_partial_sort token_logit))
    by apply insertion_partial_sort_conforms.
  assert (Hwd : well_defined_call (start_process env_plain) sample_logits 3 2 5)
    by (apply (sample_call_well_defined env_plain None); discriminate).
  assert (Hnan : no_nan (row_of (data sample_logits) 5 0))
    by (apply no_nanb_spec; reflexivity).
  split; [ exact Hps | ]. split; [ exact Hwd | ]. split; [ exact Hnan | ].
  split; [ reflexivity | ].
  apply (printed_entries_are_the_top_scores true insertion_partial_sort
           (start_process env_plain) sample_logits "DECODE" [] 3 2 5 0
           Hps Hwd ltac:(lia) Hnan).
Defined.

(** X3.  An enabled call with defined behaviour copies the tensor to the
    host exactly once, before it prints anything, and frames its report:
    the first line is the banner with the phase label, the last two are
    the closing banner and an empty line. *)
Theorem enabled_call_copies_once_and_frames_the_report :
  forall (char_is_signed : bool)
    (partial_sort : (token_logit -> token_logit -> bool) -> nat ->
                    list token_logit -> list token_logit)
    (p : Process) (logits : NDArray) (phase : string)
    (request_ids : list string) (top_k batch_size vocab_size : Z),
    partial_sort_conforms partial_sort ->
    well_defined_call p logits top_k batch_size vocab_size ->
    let run :=
      DebugPrintLogits char_is_signed partial_sort p logits phase
        request_ids top_k in
    tensor_reads (trace run) = 1%nat
    /\ hd_error (trace run) = Some (EvCopyTo (device logits) kDLCPU)
    /\ exists blocks,
         cout_lines (trace run) = Banner phase :: blocks ++ [EndBanner; Blank].
Proof.
  intros cs ps p logits phase ids top_k b v Hps Hwd run. subst run.
  rewrite (DebugPrintLogits_returns cs ps Hps _ _ phase ids _ _ _ Hwd).
  cbn [trace fst tensor_reads hd_error cout_lines].
  rewrite tensor_reads_map, cout_lines_map.
  split; [ reflexivity | ]. split; [ reflexivity | ].
  unfold report_lines. eexists. reflexivity.
Qed.

Lemma enabled_call_copies_once_and_frames_the_report_witness :
  let run :=
    DebugPrintLogits true insertion_partial_sort (start_process env_plain)
      sample_logits "PREFILL" [] 3 in
  partial_sort_conforms (@insertion_partial_sort token_logit)
  /\ well_defined_call (start_process env_plain) sample_logits 3 2 5
  /\ tensor_reads (trace run) = 1%nat
  /\ hd_error (cout_lines (trace run)) = Some (Banner "PREFILL").
Proof.
  assert (Hps : partial_sort_conforms (@insertion_partial_sort token_logit))
    by apply insertion_partial_sort_conforms.
  assert (Hwd : well_defined_call (start_process env_plain) sample_logits 3 2 5)
    by (apply (sample_call_well_defined env_plain None); discriminate).
  split; [ exact Hps | ]. split; [ exact Hwd | ].
  destruct (enabled_call_copies_once_and_frames_the_report true
              insertion_partial_sort (start_process env_plain) sample_logits
              "PREFILL" [] 3 2 5 Hps Hwd) as [Hreads _].
  split; [ exact Hreads | reflexivity ].
Defined.

(** X4.  Token strings need both verbose mode and a registered
    tokenizer; statistics need verbose mode.  Without verbose mode a
    block holds no statistics line and no entry carries a token string,
    and the same holds for the token strings when no tokenizer is
    registered. *)
Theorem plain_mode_prints_no_token_and_no_statistics :
  forall (char_is_signed : bool)
    (partial_sort : (token_logit -> token_logit -> bool) -> nat ->
                    list token_logit -> list token_logit)
    (p : Process) (logits : NDArray) (phase : string)
    (request_ids : list string) (top_k batch_size vocab_size seq_idx : Z),
    partial_sort_conforms partial_sort ->
    well_defined_call p logits top_k batch_size vocab_size ->
    0 <= seq_idx < batch_size ->
    let run :=
      DebugPrintLogits char_is_signed partial_sort p logits phase
        request_ids top_k in
    let block := block_of_seq seq_idx (cout_lines (trace run)) in
    (IsLogitDebugVerbose p = false -> stats_of block = [])
    /\ (IsLogitDebugVerbose p = false \/ DebugGetTokenizer p = None ->
        forall e, In e (entries_of block) -> entry_token e = None).
Proof.
  intros cs ps p logits phase ids top_k b v seq_idx Hps Hwd Hs run block.
  subst block run.
  rewrite (printed_block cs ps Hps _ _ phase ids _ _ _ _ Hwd Hs).
  rewrite stats_of_sequence_body, entries_of_sequence_body. split.
  - intros ->. reflexivity.
  - intros Hplain e He. apply in_map_iff in He. destruct He as [i [<- _]].
    cbn [entry_of entry_token token_of].
    destruct Hplain as [-> | ->]; [ | reflexivity ].
    destruct (DebugGetTokenizer p); reflexivity.
Qed.

(** Scenario A of the specification: two sequences over five tokens,
    [top_k = 3], the probe enabled but not verbose, no identifier: two
    blocks headed ["unknown"], three entries each, no statistics and no
    token string. *)
Lemma plain_mode_prints_no_token_and_no_statistics_witness :
  let run :=
    DebugPrintLogits true insertion_partial_sort (start_process env_plain)
      sample_logits "DECODE" [] 3 in
  let out := cout_lines (trace run) in
  partial_sort_conforms (@insertion_partial_sort token_logit)
  /\ well_defined_call (start_process env_plain) sample_logits 3 2 5
  /\ IsLogitDebugVerbose (start_process env_plain) = false
  /\ request_headers out = [("unknown", 0); ("unknown", 1)]
  /\ map entry_token_id (entries_of (block_of_seq 0 out)) = [1; 4; 2]
  /\ map entry_token_id (entries_of (block_of_seq 1 out)) = [0; 2; 3]
  /\ stats_of out = []
  /\ forall e, In e (entries_of (block_of_seq 1 out)) -> entry_token e = None.
Proof.
  assert (Hps : partial_sort_conforms (@insertion_partial_sort token_logit))
    by apply insertion_partial_sort_conforms.
  assert (Hwd : well_defined_call (start_process env_plain) sample_logits 3 2 5)
    by (apply (sample_call_well_defined env_plain None); discriminate).
  split; [ exact Hps | ]. split; [ exact Hwd | ].
  split; [ reflexivity | ]. split; [ reflexivity | ].
  split; [ reflexivity | ]. split; [ reflexivity | ].
  split; [ reflexivity | ].
  apply (plain_mode_prints_no_token_and_no_statistics true
           insertion_partial_sort (start_process env_plain) sample_logits
           "DECODE" [] 3 2 5 1 Hps Hwd ltac:(lia)).
  left. reflexivity.
Defined.

(** X5.  The escape of a token string holds printable ASCII bytes only
    (no control byte survives); newline, tab and carriage return are
    written as a backslash followed by [n], [t] and [r]; any other byte
    outside the range 32-126 is written as a backslash, [x] and the
    decimal digits of its value; and the signedness of plain [char] does
    not matter. *)
Theorem escaped_token_is_printable :
  forall (signed : bool) (token_str : string),
    all_chars printable (escape_token signed token_str) = true
    /\ escape_token signed token_str = escape_token true token_str
    /\ escape_char signed newline = String backslash "n"
    /\ escape_char signed tab = String backslash "t"
    /\ escape_char signed carriage_return = String backslash "r"
    /\ forall c,
         printable c = false ->
         c <> newline -> c <> tab -> c <> carriage_return ->
         escape_char signed c
         = (String backslash "x" ++ to_string (unsigned_char c))%string.
Proof.
  intros signed token_str.
  split; [ apply escape_token_output_printable | ].
  split; [ destruct signed; [ reflexivity | symmetry; apply escape_token_signedness ] | ].
  split; [ apply escape_char_newline | ].
  split; [ apply escape_char_tab | ].
  split; [ apply escape_char_carriage_return | ].
  apply escape_char_non_printable.
Qed.

Lemma all_chars_impl (P Q : ascii -> bool) (s : string) :
  (forall c, P c = true -> Q c = true) ->
  all_chars P s = true -> all_chars Q s = true.
Proof.
  intros Himp. induction s as [ | c s IH ]; cbn; [ reflexivity | ].
  rewrite !andb_true_iff. intros [Hc Hs]. split; auto.
Qed.

Lemma printable_is_no_line_break (s : string) :
  all_chars printable s = true -> line_break_free s = true.
Proof.
  apply all_chars_impl. intros c.
  destruct c as [[] [] [] [] [] [] [] []]; vm_compute;
    intros H; first [ reflexivity | discriminate H ].
Qed.

(** X6.  Below its header, every line of a block is written as one line
    of output: the entries (with their escaped token string, whatever
    the tokenizer returned), the statistics and the separating empty
    line hold no line break but the [std::endl] that ends them. *)
Theorem block_lines_span_one_line :
  forall (char_is_signed : bool)
    (partial_sort : (token_logit -> token_logit -> bool) -> nat ->
                    list token_logit -> list token_logit)
    (p : Process) (logits : NDArray) (phase : string)
    (request_ids : list string) (top_k batch_size vocab_size seq_idx : Z),
    partial_sort_conforms partial_sort ->
    well_defined_call p logits top_k batch_size vocab_size ->
    0 <= seq_idx < batch_size ->
    let run :=
      DebugPrintLogits char_is_signed partial_sort p logits phase
        request_ids top_k in
    forall l, In l (block_of_seq seq_idx (cout_lines (trace run))) ->
      single_line (render l) = true.
Proof.
  intros cs ps p logits phase ids top_k b v seq_idx Hps Hwd Hs run l Hl.
  subst run.
  rewrite (printed_block cs ps Hps _ _ phase ids _ _ _ _ Hwd Hs) in Hl.
  unfold sequence_body in Hl.
  apply in_app_or in Hl. destruct Hl as [Hl | Hl].
  - apply in_map_iff in Hl. destruct Hl as [i [<- _]].
    unfold entry_line, token_of.
    destruct (DebugGetTokenizer p) as [obj | ]; [ | reflexivity ].
    destruct (IsLogitDebugVerbose p); [ | reflexivity ].
    destruct (IdToToken obj _) as [token_str | ]; [ | reflexivity ].
    cbn. rewrite andb_true_r.
    apply printable_is_no_line_break, escape_token_output_printable.
  - apply in_app_or in Hl. destruct Hl as [Hl | Hl].
    + destruct (IsLogitDebugVerbose p); [ | destruct Hl ].
      destruct Hl as [<- | []]. reflexivity.
    + destruct (seq_idx <? b - 1); [ | destruct Hl ].
      destruct Hl as [<- | []]. reflexivity.
Qed.

(** Scenario C of the specification, in small: a token whose string
    holds a newline is printed with a backslash and [n], on one line. *)
Lemma block_lines_span_one_line_witness :
  let p := DebugRegisterTokenizer sample_tokenizer (start_process env_verbose) in
  let run :=
    DebugPrintLogits true insertion_partial_sort p sample_logits "DECODE"
      ["r0"] 3 in
  let l := TopEntry 1 4 (Float32.of_int 4) (Some (String backslash "na")) in
  partial_sort_conforms (@insertion_partial_sort token_logit)
  /\ well_defined_call p sample_logits 3 2 5
  /\ In l (block_of_seq 0 (cout_lines (trace run)))
  /\ single_line (render l) = true.
Proof.
  intros p run l.
  assert (Hps : partial_sort_conforms (@insertion_partial_sort token_logit))
    by apply insertion_partial_sort_conforms.
  assert (Hwd : well_defined_call p sample_logits 3 2 5)
    by (apply sample_call_well_defined; discriminate).
  assert (Hl : In l (block_of_seq 0 (cout_lines (trace run))))
    by (right; left; reflexivity).
  split; [ exact Hps | ]. split; [ exact Hwd | ]. split; [ exact Hl | ].
  apply (block_lines_span_one_line true insertion_partial_sort p
           sample_logits "DECODE" ["r0"] 3 2 5 0 Hps Hwd ltac:(lia) l Hl).
Defined.

(* ================================================================== *)
(** * More on the escaping loop *)

Lemma string_length_app (s1 s2 : string) :
  String.length (s1 ++ s2) = (String.length s1 + String.length s2)%nat.
Proof. induction s1 as [ | c s1 IH ]; cbn; [ | f_equal ]; auto. Qed.

Lemma string_app_assoc (s1 s2 s3 : string) :
  ((s1 ++ s2) ++ s3 = s1 ++ (s2 ++ s3))%string.
Proof. induction s1 as [ | c s1 IH ]; cbn; [ | f_equal ]; auto. Qed.

Lemma escape_token_app (signed : bool) (s1 s2 : string) :
  escape_token signed (s1 ++ s2)
  = (escape_token signed s1 ++ escape_token signed s2)%string.
Proof.
  induction s1 as [ | c s1 IH ]; cbn [String.append escape_token].
  - reflexivity.
  - rewrite IH, string_app_assoc. reflexivity.
Qed.

Lemma escape_char_length (signed : bool) (c : ascii) :
  (1 <= String.length (escape_char signed c) <= 5)%nat.
Proof.
  destruct signed; destruct c as [[] [] [] [] [] [] [] []]; vm_compute;
    split; repeat constructor.
Qed.

Lemma escape_token_printable_id (signed : bool) (s : string) :
  all_chars printable s = true -> escape_token signed s = s.
Proof.
  induction s as [ | c s IH ]; cbn [all_chars escape_token]; [ reflexivity | ].
  intros H. apply andb_true_iff in H. destruct H as [Hc Hs].
  rewrite (escape_char_printable signed c Hc), (IH Hs). reflexivity.
Qed.

(** X7.  The escaping loop works byte by byte: the escape of a
    concatenation is the concatenation of the escapes, and the escaped
    string is at least as long as the token string and at most five
    times as long (a byte becomes at most a backslash, [x] and three
    decimal digits). *)
Theorem escape_is_bytewise_and_bounded :
  forall (signed : bool) (s1 s2 : string),
    escape_token signed (s1 ++ s2)
    = (escape_token signed s1 ++ escape_token signed s2)%string
    /\ (String.length s1 <= String.length (escape_token signed s1)
        <= 5 * String.length s1)%nat.
Proof.
  intros signed s1 s2. split; [ apply escape_token_app | ].
  clear s2. induction s1 as [ | c s IH ]; cbn [escape_token String.length].
  - lia.
  - rewrite string_length_app.
    pose proof (escape_char_length signed c). lia.
Qed.

(** X8.  Escaping an escaped token string changes nothing more: the
    output of the loop holds printable bytes only, and those are
    copied. *)
Theorem escape_is_idempotent :
  forall (signed : bool) (token_str : string),
    escape_token signed (escape_token signed token_str)
    = escape_token signed token_str.
Proof.
  intros signed token_str.
  apply escape_token_printable_id, escape_token_output_printable.
Qed.

(** X9.  The backslash itself is not escaped, so different token
    strings are printed alike and the token cannot be read back from the
    report: a newline, a tab or a carriage return is printed like the
    two characters backslash and [n], [t] or [r], and the form feed
    (byte 12) like the byte 1 followed by the digit 2. *)
Theorem escape_is_not_injective :
  forall (signed : bool) (rest : string),
    escape_token signed (String newline rest)
    = escape_token signed (String backslash (String "n" rest))
    /\ escape_token signed (String tab rest)
       = escape_token signed (String backslash (String "t" rest))
    /\ escape_token signed (String carriage_return rest)
       = escape_token signed (String backslash (String "r" rest))
    /\ escape_token signed (String (ascii_of_nat 12) rest)
       = escape_token signed (String (ascii_of_nat 1) (String "2" rest))
    /\ String newline rest <> String backslash (String "n" rest)
    /\ String (ascii_of_nat 12) rest
       <> String (ascii_of_nat 1) (String "2" rest).
Proof.
  intros signed rest.
  repeat split; try (destruct signed; reflexivity); discriminate.
Qed.

(* ================================================================== *)
(** * What the reporter depends on *)

Lemma bind_ext {A B : Type} (m : M A) (k k' : A -> M B) :
  (forall a, k a = k' a) -> bind m k = bind m k'.
Proof.
  intros H. destruct m as [t [a | | ]]; cbn; [ rewrite H | | ]; reflexivity.
Qed.

Lemma for_loop_ext (body body' : Z -> M unit) (n : nat) :
  forall start,
    (forall i, In i (iota start n) -> body i = body' i) ->
    for_loop n start body = for_loop n start body'.
Proof.
  induction n as [ | n IH ]; intros start H; cbn [for_loop]; [ reflexivity | ].
  rewrite (H start) by (left; reflexivity).
  apply bind_ext. intros _. apply IH.
  intros i Hi. apply H. right. exact Hi.
Qed.

Section Dependencies.

Variable char_is_signed : bool.
Variable partial_sort :
  (token_logit -> token_logit -> bool) -> nat -> list token_logit ->
  list token_logit.

(** The loop over the sequences, as [DebugPrintLogits] runs it once the
    probe is enabled and the two dimensions are read. *)
Lemma DebugPrintLogits_enabled (p : Process) (logits : NDArray)
  (phase : string) (request_ids : list string) (top_k shape0 shape1 : Z) :
  IsLogitDebugEnabled p = true ->
  nth_error (shape logits) 0 = Some shape0 ->
  nth_error (shape logits) 1 = Some shape1 ->
  DebugPrintLogits char_is_signed partial_sort p logits phase request_ids
    top_k
  = bind (CopyTo logits kDLCPU) (fun _ =>
      bind (cout (Banner phase)) (fun _ =>
        bind (for_int 0 (int_of_int64 shape0)
                (print_sequence char_is_signed partial_sort (data logits)
                   (int_of_int64 shape0) (int_of_int64 shape1)
                   (IsLogitDebugVerbose p) (DebugGetTokenizer p)
                   request_ids top_k))
             (fun _ => bind (cout EndBanner) (fun _ => cout Blank)))).
Proof.
  intros Hen H0 H1. unfold DebugPrintLogits. rewrite Hen. cbn [negb].
  unfold CopyTo, shape_at. cbn [bind shape data].
  rewrite H0, H1, !bind_ret_l. reflexivity.
Qed.

(** When the tensor has fewer than two dimensions, or the probe is
    disabled, the arguments other than the tensor play no role. *)
Lemma DebugPrintLogits_no_loop (p : Process) (logits : NDArray)
  (phase phase' : string) (request_ids request_ids' : list string)
  (top_k top_k' : Z) :
  IsLogitDebugEnabled p = false
  \/ nth_error (shape logits) 0 = None
  \/ nth_error (shape logits) 1 = None ->
  DebugPrintLogits char_is_signed partial_sort p logits phase request_ids
    top_k
  = DebugPrintLogits char_is_signed partial_sort p logits phase'
      request_ids' top_k'.
Proof.
  intros H. unfold DebugPrintLogits.
  destruct (IsLogitDebugEnabled p); cbn [negb]; [ | reflexivity ].
  unfold CopyTo, shape_at. cbn [bind shape data].
  destruct H as [H | [H | H]]; [ discriminate H | | ].
  - rewrite H. reflexivity.
  - rewrite H. destruct (nth_error (shape logits) 0); reflexivity.
Qed.

Lemma print_sequence_clamped (buf : list float) (batch_size vocab_size : Z)
  (verbose : bool) (t : Tokenizer) (request_ids : list string)
  (top_k top_k' seq_idx : Z) :
  vocab_size <= top_k -> vocab_size <= top_k' ->
  print_sequence char_is_signed partial_sort buf batch_size vocab_size
    verbose t request_ids top_k seq_idx
  = print_sequence char_is_signed partial_sort buf batch_size vocab_size
      verbose t request_ids top_k' seq_idx.
Proof.
  intros H H'. unfold print_sequence.
  rewrite (Z.min_r top_k vocab_size H), (Z.min_r top_k' vocab_size H').
  reflexivity.
Qed.

Lemma print_sequence_request_ids (buf : list float)
  (batch_size vocab_size : Z) (verbose : bool) (t : Tokenizer)
  (request_ids request_ids' : list string) (top_k seq_idx : Z) :
  0 <= seq_idx ->
  nth_error request_ids (Z.to_nat seq_idx)
  = nth_error request_ids' (Z.to_nat seq_idx) ->
  print_sequence char_is_signed partial_sort buf batch_size vocab_size
    verbose t request_ids top_k seq_idx
  = print_sequence char_is_signed partial_sort buf batch_size vocab_size
      verbose t request_ids' top_k seq_idx.
Proof.
  intros Hs Hnth. unfold print_sequence.
  rewrite !request_id_of_eq by exact Hs.
  unfold request_id_of. rewrite Hnth. reflexivity.
Qed.

Lemma print_entry_plain (t t' : Tokenizer) (v : list token_logit) (i : Z) :
  print_entry char_is_signed t false v i
  = print_entry char_is_signed t' false v i.
Proof.
  unfold print_entry. apply bind_ext. intros e.
  rewrite !token_text_returns. unfold token_of.
  destruct t, t'; reflexivity.
Qed.

Lemma print_sequence_plain (buf : list float) (batch_size vocab_size : Z)
  (t t' : Tokenizer) (request_ids : list string) (top_k seq_idx : Z) :
  print_sequence char_is_signed partial_sort buf batch_size vocab_size
    false t request_ids top_k seq_idx
  = print_sequence char_is_signed partial_sort buf batch_size vocab_size
      false t' request_ids top_k seq_idx.
Proof.
  unfold print_sequence.
  apply bind_ext. intros _. apply bind_ext. intros off.
  apply bind_ext. intros seq_logits. apply bind_ext. intros _.
  unfold for_int.
  rewrite (for_loop_ext _
             (print_entry char_is_signed t' false
                (partial_sort by_logit_desc
                   (Z.to_nat (Z.min top_k vocab_size))
                   (enumerate_from 0 seq_logits)))).
  - reflexivity.
  - intros i _. apply print_entry_plain.
Qed.

End Dependencies.

(** X10.  [top_k] is clamped to the vocabulary size: two calls whose
    [top_k] both reach the vocabulary size do exactly the same, whatever
    the other arguments. *)
Theorem top_k_is_clamped_to_the_vocabulary :
  forall (char_is_signed : bool)
    (partial_sort : (token_logit -> token_logit -> bool) -> nat ->
                    list token_logit -> list token_logit)
    (p : Process) (logits : NDArray) (phase : string)
    (request_ids : list string) (top_k top_k' vocab_size : Z),
    nth_error (shape logits) 1 = Some vocab_size ->
    0 <= vocab_size <= INT_MAX ->
    vocab_size <= top_k -> vocab_size <= top_k' ->
    DebugPrintLogits char_is_signed partial_sort p logits phase request_ids
      top_k
    = DebugPrintLogits char_is_signed partial_sort p logits phase
        request_ids top_k'.
Proof.
  intros cs ps p logits phase ids top_k top_k' v Hv Hrange Hk Hk'.
  destruct (IsLogitDebugEnabled p) eqn:Hen;
    [ | apply DebugPrintLogits_no_loop; left; exact Hen ].
  destruct (nth_error (shape logits) 0) as [b | ] eqn:Hb;
    [ | apply DebugPrintLogits_no_loop; right; left; exact Hb ].
  rewrite !(DebugPrintLogits_enabled cs ps p logits phase ids _ b v Hen Hb Hv).
  rewrite (int_of_int64_small v Hrange).
  apply bind_ext. intros _. apply bind_ext. intros _.
  unfold for_int.
  rewrite (for_loop_ext _
             (print_sequence cs ps (data logits) (int_of_int64 b) v
                (IsLogitDebugVerbose p) (DebugGetTokenizer p) ids top_k')).
  - reflexivity.
  - intros i _. apply print_sequence_clamped; assumption.
Qed.

Lemma top_k_is_clamped_to_the_vocabulary_witness :
  nth_error (shape sample_logits) 1 = Some 5
  /\ DebugPrintLogits true insertion_partial_sort (start_process env_verbose)
       sample_logits "DECODE" [] 5
     = DebugPrintLogits true insertion_partial_sort
         (start_process env_verbose) sample_logits "DECODE" []
         default_top_k.
Proof.
  split; [ reflexivity | ].
  apply (top_k_is_clamped_to_the_vocabulary true insertion_partial_sort
           (start_process env_verbose) sample_logits "DECODE" [] 5
           default_top_k 5);
    first [ reflexivity | unfold INT_MAX, default_top_k; lia ].
Defined.

(** X11.  Only the first [batch_size] request identifiers are read: two
    lists that agree on them give exactly the same call, so identifiers
    in excess are ignored. *)
Theorem surplus_request_ids_are_ignored :
  forall (char_is_signed : bool)
    (partial_sort : (token_logit -> token_logit -> bool) -> nat ->
                    list token_logit -> list token_logit)
    (p : Process) (logits : NDArray) (phase : string)
    (request_ids request_ids' : list string) (top_k batch_size : Z),
    nth_error (shape logits) 0 = Some batch_size ->
    0 <= batch_size <= INT_MAX ->
    firstn (Z.to_nat batch_size) request_ids
    = firstn (Z.to_nat batch_size) request_ids' ->
    DebugPrintLogits char_is_signed partial_sort p logits phase request_ids
      top_k
    = DebugPrintLogits char_is_signed partial_sort p logits phase
        request_ids' top_k.
Proof.
  intros cs ps p logits phase ids ids' top_k b Hb Hrange Hids.
  destruct (IsLogitDebugEnabled p) eqn:Hen;
    [ | apply DebugPrintLogits_no_loop; left; exact Hen ].
  destruct (nth_error (shape logits) 1) as [v | ] eqn:Hv;
    [ | apply DebugPrintLogits_no_loop; right; right; exact Hv ].
  rewrite !(DebugPrintLogits_enabled cs ps p logits phase _ top_k b v Hen Hb Hv).
  rewrite (int_of_int64_small b Hrange).
  apply bind_ext. intros _. apply bind_ext. intros _.
  unfold for_int. rewrite Z.sub_0_r.
  rewrite (for_loop_ext _
             (print_sequence cs ps (data logits) b (int_of_int64 v)
                (IsLogitDebugVerbose p) (DebugGetTokenizer p) ids' top_k)).
  - reflexivity.
  - intros i Hi. apply in_iota in Hi.
    apply print_sequence_request_ids; [ lia | ].
    assert (Hlt : (Z.to_nat i <? Z.to_nat b)%nat = true)
      by (apply Nat.ltb_lt; lia).
    pose proof (nth_error_firstn (Z.to_nat b) ids (Z.to_nat i)) as H1.
    pose proof (nth_error_firstn (Z.to_nat b) ids' (Z.to_nat i)) as H2.
    rewrite Hlt in H1, H2. rewrite <- H1, <- H2, Hids. reflexivity.
Qed.

Lemma surplus_request_ids_are_ignored_witness :
  nth_error (shape sample_logits) 0 = Some 2
  /\ DebugPrintLogits true insertion_partial_sort (start_process env_plain)
       sample_logits "DECODE" ["r0"; "r1"] 3
     = DebugPrintLogits true insertion_partial_sort (start_process env_plain)
         sample_logits "DECODE" ["r0"; "r1"; "r2"; "r3"] 3.
Proof.
  split; [ reflexivity | ].
  apply (surplus_request_ids_are_ignored true insertion_partial_sort
           (start_process env_plain) sample_logits "DECODE" ["r0"; "r1"]
           ["r0"; "r1"; "r2"; "r3"] 3 2);
    first [ reflexivity | unfold INT_MAX; lia ].
Defined.

(** X12.  Outside of verbose mode the registered tokenizer is never
    consulted: registering any tokenizer leaves the gates and the whole
    call unchanged. *)
Theorem plain_mode_ignores_the_registry :
  forall (char_is_signed : bool)
    (partial_sort : (token_logit -> token_logit -> bool) -> nat ->
                    list token_logit -> list token_logit)
    (p : Process) (t : Tokenizer) (logits : NDArray) (phase : string)
    (request_ids : list string) (top_k : Z),
    IsLogitDebugVerbose p = false ->
    IsLogitDebugEnabled (DebugRegisterTokenizer t p) = IsLogitDebugEnabled p
    /\ IsLogitDebugVerbose (DebugRegisterTokenizer t p) = false
    /\ DebugPrintLogits char_is_signed partial_sort
         (DebugRegisterTokenizer t p) logits phase request_ids top_k
       = DebugPrintLogits char_is_signed partial_sort p logits phase
           request_ids top_k.
Proof.
  intros cs ps p t logits phase ids top_k Hplain.
  assert (Hv : IsLogitDebugVerbose (DebugRegisterTokenizer t p) = false)
    by exact Hplain.
  split; [ reflexivity | ]. split; [ exact Hv | ].
  unfold DebugPrintLogits.
  change (IsLogitDebugEnabled (DebugRegisterTokenizer t p))
    with (IsLogitDebugEnabled p).
  destruct (negb (IsLogitDebugEnabled p)); [ reflexivity | ].
  rewrite Hv, Hplain.
  apply bind_ext. intros logits_cpu. apply bind_ext. intros shape0.
  apply bind_ext. intros shape1. apply bind_ext. intros _.
  unfold for_int.
  rewrite (for_loop_ext _
             (print_sequence cs ps (data logits_cpu) (int_of_int64 shape0)
                (int_of_int64 shape1) false (DebugGetTokenizer p) ids top_k)).
  - reflexivity.
  - intros i _. apply print_sequence_plain.
Qed.

Lemma plain_mode_ignores_the_registry_witness :
  IsLogitDebugVerbose (start_process env_plain) = false
  /\ DebugPrintLogits true insertion_partial_sort
       (DebugRegisterTokenizer sample_tokenizer (start_process env_plain))
       sample_logits "DECODE" ["r0"] 3
     = DebugPrintLogits true insertion_partial_sort (start_process env_plain)
         sample_logits "DECODE" ["r0"] 3.
Proof.
  split; [ reflexivity | ].
  apply (plain_mode_ignores_the_registry true insertion_partial_sort
           (start_process env_plain) sample_tokenizer sample_logits "DECODE"
           ["r0"] 3).
  reflexivity.
Defined.

(* ================================================================== *)
(** * Edges of the reporter *)

Lemma bind_undefined {A B : Type} (m : M A) (k : A -> M B) (t : list event) :
  m = (t, Undefined) -> bind m k = (t, Undefined).
Proof. intros ->. reflexivity. Qed.

Lemma bind_returned_undefined {A B : Type} (m : M A) (k : A -> M B)
  (t : list event) (a : A) (t' : list event) :
  m = (t, Returned a) -> k a = (t', Undefined) ->
  bind m k = (t ++ t', Undefined).
Proof. intros Hm Hk. apply (bind_returned m k t a t' Undefined Hm Hk). Qed.

(** X13.  An empty batch: when the first dimension of the tensor is 0,
    an enabled call copies the tensor, prints the banner, the closing
    banner and an empty line, and returns; [top_k] (even a negative
    one), the mode and the request identifiers play no role. *)
Theorem empty_batch_prints_the_frame_only :
  forall (char_is_signed : bool)
    (partial_sort : (token_logit -> token_logit -> bool) -> nat ->
                    list token_logit -> list token_logit)
    (p : Process) (logits : NDArray) (phase : string)
    (request_ids : list string) (top_k vocab_size : Z) (dims : list Z),
    IsLogitDebugEnabled p = true ->
    shape logits = 0 :: vocab_size :: dims ->
    DebugPrintLogits char_is_signed partial_sort p logits phase request_ids
      top_k
    = ([EvCopyTo (device logits) kDLCPU; EvCout (Banner phase);
        EvCout EndBanner; EvCout Blank],
       Returned tt).
Proof.
  intros cs ps p logits phase ids top_k v dims Hen Hshape.
  rewrite (DebugPrintLogits_enabled cs ps p logits phase ids top_k 0 v Hen)
    by (rewrite Hshape; reflexivity).
  reflexivity.
Qed.

Lemma empty_batch_prints_the_frame_only_witness :
  let logits := {| device := kDLAccelerator 1; shape := [0; 5]; data := [] |} in
  IsLogitDebugEnabled (start_process env_verbose) = true
  /\ cout_lines
       (trace (DebugPrintLogits true insertion_partial_sort
                 (start_process env_verbose) logits "PREFILL" ["r0"] (-1)))
     = [Banner "PREFILL"; EndBanner; Blank].
Proof.
  intros logits. split; [ reflexivity | ].
  rewrite (empty_batch_prints_the_frame_only true insertion_partial_sort
             (start_process env_verbose) logits "PREFILL" ["r0"] (-1) 5 []
             eq_refl eq_refl).
  reflexivity.
Defined.

(** X14.  A tensor with fewer than two dimensions: an enabled call
    copies the tensor and then reads a dimension that does not exist,
    which is undefined behaviour; nothing has been printed by then (the
    source has no check of the rank). *)
Theorem rank_below_two_is_undefined :
  forall (char_is_signed : bool)
    (partial_sort : (token_logit -> token_logit -> bool) -> nat ->
                    list token_logit -> list token_logit)
    (p : Process) (logits : NDArray) (phase : string)
    (request_ids : list string) (top_k : Z),
    IsLogitDebugEnabled p = true ->
    (List.length (shape logits) < 2)%nat ->
    DebugPrintLogits char_is_signed partial_sort p logits phase request_ids
      top_k
    = ([EvCopyTo (device logits) kDLCPU], Undefined).
Proof.
  intros cs ps p logits phase ids top_k Hen Hrank.
  unfold DebugPrintLogits. rewrite Hen. cbn [negb].
  unfold CopyTo, shape_at. cbn [bind shape data].
  destruct (shape logits) as [ | d0 [ | d1 dims ]]; cbn in Hrank |- *;
    first [ reflexivity | lia ].
Qed.

Lemma rank_below_two_is_undefined_witness :
  let logits :=
    {| device := kDLCPU; shape := [3]; data := map Float32.of_int [1; 2; 3] |} in
  IsLogitDebugEnabled (start_process env_plain) = true
  /\ (List.length (shape logits) < 2)%nat
  /\ result (DebugPrintLogits true insertion_partial_sort
               (start_process env_plain) logits "DECODE" [] 3)
     = Undefined.
Proof.
  intros logits. split; [ reflexivity | ]. split; [ cbn; lia | ].
  rewrite (rank_below_two_is_undefined true insertion_partial_sort
             (start_process env_plain) logits "DECODE" [] 3 eq_refl);
    [ reflexivity | cbn; lia ].
Defined.

Section UndefinedCalls.

Variable char_is_signed : bool.
Variable partial_sort :
  (token_logit -> token_logit -> bool) -> nat -> list token_logit ->
  list token_logit.

Lemma for_int_first_undefined (body : Z -> M unit) (hi : Z)
  (t : list event) :
  0 < hi -> body 0 = (t, Undefined) -> for_int 0 hi body = (t, Undefined).
Proof.
  intros Hhi Hbody. unfold for_int.
  destruct (Z.to_nat (hi - 0)) as [ | n ] eqn:Hn; [ lia | ].
  cbn [for_loop]. apply bind_undefined, Hbody.
Qed.

Lemma DebugPrintLogits_first_undefined (p : Process) (logits : NDArray)
  (phase : string) (request_ids : list string)
  (top_k batch_size vocab_size : Z) (t : list event) :
  IsLogitDebugEnabled p = true ->
  shape logits = [batch_size; vocab_size] ->
  0 < batch_size <= INT_MAX -> 0 <= vocab_size <= INT_MAX ->
  print_sequence char_is_signed partial_sort (data logits) batch_size
    vocab_size (IsLogitDebugVerbose p) (DebugGetTokenizer p) request_ids
    top_k 0 = (t, Undefined) ->
  DebugPrintLogits char_is_signed partial_sort p logits phase request_ids
    top_k
  = (EvCopyTo (device logits) kDLCPU :: EvCout (Banner phase) :: t,
     Undefined).
Proof.
  intros Hen Hshape Hb Hv Hseq.
  rewrite (DebugPrintLogits_enabled char_is_signed partial_sort p logits
             phase request_ids top_k batch_size vocab_size Hen)
    by (rewrite Hshape; reflexivity).
  rewrite !int_of_int64_small by lia.
  unfold CopyTo.
  change (EvCopyTo ?a ?b :: ?c :: t) with ([EvCopyTo a b] ++ [c] ++ t).
  eapply bind_returned_undefined; [ reflexivity | ].
  apply bind_returned_undefined with (a := tt); [ reflexivity | ].
  apply bind_undefined.
  apply for_int_first_undefined; [ lia | exact Hseq ].
Qed.

End UndefinedCalls.

(** X15.  A negative [top_k]: with a batch that is not empty, the call
    prints the banner and the header of the first sequence and then
    forms the iterator [token_logits.begin() + top_k] in front of the
    vector, which is undefined behaviour (the source does not check
    [top_k]). *)
Theorem negative_top_k_is_undefined :
  forall (char_is_signed : bool)
    (partial_sort : (token_logit -> token_logit -> bool) -> nat ->
                    list token_logit -> list token_logit)
    (p : Process) (logits : NDArray) (phase : string)
    (request_ids : list string) (top_k batch_size vocab_size : Z),
    IsLogitDebugEnabled p = true ->
    shape logits = [batch_size; vocab_size] ->
    0 < batch_size <= INT_MAX -> 0 <= vocab_size <= INT_MAX ->
    Z.of_nat (List.length (data logits)) = batch_size * vocab_size ->
    top_k < 0 ->
    DebugPrintLogits char_is_signed partial_sort p logits phase request_ids
      top_k
    = ([EvCopyTo (device logits) kDLCPU; EvCout (Banner phase);
        EvCout (RequestHeader (request_id_of request_ids 0) 0)],
       Undefined).
Proof.
  intros cs ps p logits phase ids top_k b v Hen Hshape Hb Hv Hdata Hk.
  apply (DebugPrintLogits_first_undefined cs ps p logits phase ids top_k b v);
    try assumption.
  unfold print_sequence. rewrite request_id_of_eq by lia.
  rewrite <- (app_nil_r [EvCout (RequestHeader (request_id_of ids 0) 0)]).
  apply bind_returned_undefined with (a := tt); [ reflexivity | ].
  assert (Hmul : int_mul 0 v = ret 0) by reflexivity.
  rewrite Hmul, bind_ret_l.
  rewrite load_range_returns by nia. rewrite bind_ret_l.
  replace ((0 <=? Z.min top_k v) && (Z.min top_k v <=? v)) with false.
  - reflexivity.
  - symmetry. apply andb_false_iff. left. apply Z.leb_gt. lia.
Qed.

Lemma negative_top_k_is_undefined_witness :
  IsLogitDebugEnabled (start_process env_plain) = true
  /\ result (DebugPrintLogits true insertion_partial_sort
               (start_process env_plain) sample_logits "DECODE" ["r0"] (-1))
     = Undefined
  /\ cout_lines
       (trace (DebugPrintLogits true insertion_partial_sort
                 (start_process env_plain) sample_logits "DECODE" ["r0"] (-1)))
     = [Banner "DECODE"; RequestHeader "r0" 0].
Proof.
  split; [ reflexivity | ].
  rewrite (negative_top_k_is_undefined true insertion_partial_sort
             (start_process env_plain) sample_logits "DECODE" ["r0"] (-1)
             2 5 eq_refl eq_refl);
    first [ split; reflexivity | unfold INT_MAX; lia | reflexivity ].
Defined.

(** X16.  An empty vocabulary in verbose mode: with a batch that is not
    empty and a second dimension of 0, the call prints the banner and
    the header of the first sequence (no entry) and then dereferences
    the end iterator that [std::max_element] returns for the empty row,
    which is undefined behaviour.  Outside of verbose mode the same call
    is fine. *)
Theorem empty_vocabulary_is_undefined_in_verbose_mode :
  forall (char_is_signed : bool)
    (partial_sort : (token_logit -> token_logit -> bool) -> nat ->
                    list token_logit -> list token_logit)
    (p : Process) (logits : NDArray) (phase : string)
    (request_ids : list string) (top_k batch_size : Z),
    IsLogitDebugVerbose p = true ->
    shape logits = [batch_size; 0] ->
    0 < batch_size <= INT_MAX ->
    0 <= top_k ->
    DebugPrintLogits char_is_signed partial_sort p logits phase request_ids
      top_k
    = ([EvCopyTo (device logits) kDLCPU; EvCout (Banner phase);
        EvCout (RequestHeader (request_id_of request_ids 0) 0)],
       Undefined).
Proof.
  intros cs ps p logits phase ids top_k b Hverbose Hshape Hb Hk.
  assert (Hen : IsLogitDebugEnabled p = true).
  { unfold IsLogitDebugVerbose in Hverbose. unfold IsLogitDebugEnabled.
    destruct (getenv (environ p) MLC_DEBUG_LOGITS);
      [ reflexivity | discriminate Hverbose ]. }
  apply (DebugPrintLogits_first_undefined cs ps p logits phase ids top_k b 0);
    try assumption; try (unfold INT_MAX; lia).
  unfold print_sequence. rewrite request_id_of_eq by lia.
  rewrite Hverbose, (Z.min_r top_k 0 Hk).
  reflexivity.
Qed.

Lemma empty_vocabulary_is_undefined_in_verbose_mode_witness :
  let logits := {| device := kDLCPU; shape := [2; 0]; data := [] |} in
  IsLogitDebugVerbose (start_process env_verbose) = true
  /\ result (DebugPrintLogits true insertion_partial_sort
               (start_process env_verbose) logits "DECODE" [] 3)
     = Undefined
  /\ DebugPrintLogits true insertion_partial_sort (start_process env_plain)
       logits "DECODE" [] 3
     = (EvCopyTo kDLCPU kDLCPU
        :: map EvCout
             [Banner "DECODE"; RequestHeader "unknown" 0; Blank;
              RequestHeader "unknown" 1; EndBanner; Blank],
        Returned tt).
Proof.
  intros logits. split; [ reflexivity | ].
  rewrite (empty_vocabulary_is_undefined_in_verbose_mode true
             insertion_partial_sort (start_process env_verbose) logits
             "DECODE" [] 3 2 eq_refl eq_refl);
    first [ split; reflexivity | unfold INT_MAX; lia ].
Defined.

(* ================================================================== *)
(** * The size of the report *)

Lemma count_line_breaks_free (s : string) :
  line_break_free s = true -> count_line_breaks s = O.
Proof.
  unfold line_break_free.
  induction s as [ | c s IH ]; cbn [all_chars count_line_breaks];
    [ reflexivity | ].
  rewrite andb_true_iff. intros [Hc Hs]. rewrite (IH Hs).
  destruct (Ascii.eqb c newline); [ discriminate Hc | reflexivity ].
Qed.

Lemma list_sum_cons (a : nat) (l : list nat) :
  list_sum (a :: l) = (a + list_sum l)%nat.
Proof. reflexivity. Qed.

Lemma line_breaks_app (a b : list line) :
  line_breaks (a ++ b) = (line_breaks a + line_breaks b)%nat.
Proof.
  unfold line_breaks. rewrite map_app, list_sum_app. reflexivity.
Qed.

Lemma line_breaks_flat_map {X : Type} (f : X -> list line) (l : list X) :
  line_breaks (flat_map f l) = list_sum (map (fun x => line_breaks (f x)) l).
Proof.
  induction l as [ | x l IH ]; cbn [flat_map map]; [ reflexivity | ].
  rewrite line_breaks_app, list_sum_cons, IH. reflexivity.
Qed.

(** The identifiers that head the blocks are those of the first
    [batch_size] places of the list; ["unknown"] holds no line break. *)
Lemma request_id_line_breaks (request_ids : list string) (n k : nat) :
  list_sum (map (fun i => count_line_breaks (request_id_of request_ids i))
                (iota (Z.of_nat k) n))
  = list_sum (map count_line_breaks (firstn n (skipn k request_ids))).
Proof.
  revert k. induction n as [ | n IH ]; intros k; [ reflexivity | ].
  cbn [iota map]. rewrite list_sum_cons.
  replace (Z.of_nat k + 1) with (Z.of_nat (S k)) by lia.
  rewrite IH. unfold request_id_of. rewrite Nat2Z.id.
  destruct (nth_error request_ids k) as [id | ] eqn:Hid.
  - rewrite (skipn_nth_error _ _ _ Hid). reflexivity.
  - apply nth_error_None in Hid.
    rewrite !skipn_all2 by lia. rewrite !firstn_nil. reflexivity.
Qed.

(** A sum over the sequences of a batch: every sequence but the last
    counts one more. *)
Lemma list_sum_separated (g : Z -> nat) (c : nat) (last_idx : Z) :
  forall n start,
    start + Z.of_nat n = last_idx + 1 ->
    Z.of_nat
      (list_sum
         (map (fun i => (c + g i + (if (i <? last_idx)%Z then 1 else 0))%nat)
              (iota start n)))
    = Z.of_nat n * Z.of_nat c
      + Z.of_nat (list_sum (map g (iota start n)))
      + Z.max 0 (Z.of_nat n - 1).
Proof.
  induction n as [ | n IH ]; intros start Hend; cbn [iota map].
  - cbn. lia.
  - rewrite !list_sum_cons, !Nat2Z.inj_add, (IH (start + 1)) by lia.
    destruct (Z.ltb_spec start last_idx); lia.
Qed.

Section ReportSize.

Variable char_is_signed : bool.
Variable partial_sort :
  (token_logit -> token_logit -> bool) -> nat -> list token_logit ->
  list token_logit.

(** An entry is written on one line, whatever the tokenizer returned:
    the token string is escaped. *)
Lemma line_breaks_entry_lines (t : Tokenizer) (verbose : bool)
  (v : list token_logit) (idxs : list Z) :
  line_breaks (map (entry_line char_is_signed t verbose v) idxs)
  = List.length idxs.
Proof.
  induction idxs as [ | i idxs IH ]; [ reflexivity | ].
  cbn [map List.length].
  change (?l :: ?r) with ([l] ++ r). rewrite line_breaks_app, IH.
  f_equal. unfold entry_line, token_of.
  destruct t as [obj | ]; [ destruct verbose | ]; try reflexivity.
  destruct (IdToToken obj _) as [s | ]; [ | reflexivity ].
  unfold line_breaks. cbn.
  rewrite count_line_breaks_free; [ reflexivity | ].
  apply printable_is_no_line_break, escape_token_output_printable.
Qed.

Lemma line_breaks_sequence_lines (buf : list float)
  (batch_size vocab_size : Z) (verbose : bool) (t : Tokenizer)
  (request_ids : list string) (top_k seq_idx : Z) :
  line_breaks
    (sequence_lines char_is_signed partial_sort buf batch_size vocab_size
       verbose t request_ids top_k seq_idx)
  = ((1 + Z.to_nat (Z.min top_k vocab_size) + (if verbose then 1 else 0))
     + count_line_breaks (request_id_of request_ids seq_idx)
     + (if (seq_idx <? batch_size - 1)%Z then 1 else 0))%nat.
Proof.
  unfold sequence_lines.
  change (?l :: ?r) with ([l] ++ r).
  rewrite !line_breaks_app, line_breaks_entry_lines, iota_length.
  assert (Hhead : forall id i,
            line_breaks [RequestHeader id i] = S (count_line_breaks id)).
  { intros id i. unfold line_breaks. cbn. lia. }
  rewrite Hhead.
  destruct verbose, (seq_idx <? batch_size - 1); cbn; lia.
Qed.

End ReportSize.

(** X17.  The size of the printed report, in line breaks of the text
    written to [std::cout]: a call with defined behaviour writes the four
    line breaks of the frame (the banner starts with one and ends with
    one, the end banner is followed by two), for each of the
    [batch_size] sequences those of a header, of [min(top_k, vocab_size)]
    entries and, in verbose mode, of a statistics line, one between two
    sequences, and the line breaks of the phase and of the request
    identifiers that are printed, which are written as they are.  The
    token strings add none.  When the phase and the identifiers hold no
    line break, the count is at most [4 + batch_size * (top_k + 3)],
    whatever the size of the vocabulary. *)
Theorem report_line_breaks :
  forall (char_is_signed : bool)
    (partial_sort : (token_logit -> token_logit -> bool) -> nat ->
                    list token_logit -> list token_logit)
    (p : Process) (logits : NDArray) (phase : string)
    (request_ids : list string) (top_k batch_size vocab_size : Z),
    partial_sort_conforms partial_sort ->
    well_defined_call p logits top_k batch_size vocab_size ->
    let run :=
      DebugPrintLogits char_is_signed partial_sort p logits phase
        request_ids top_k in
    let printed_ids := firstn (Z.to_nat batch_size) request_ids in
    let blocks :=
      batch_size * (1 + Z.min top_k vocab_size
                    + (if IsLogitDebugVerbose p then 1 else 0))
      + Z.max 0 (batch_size - 1) in
    Z.of_nat (line_breaks (cout_lines (trace run)))
    = 4 + blocks
      + Z.of_nat (count_line_breaks phase)
      + Z.of_nat (list_sum (map count_line_breaks printed_ids))
    /\ (line_break_free phase = true ->
        forallb line_break_free printed_ids = true ->
        Z.of_nat (line_breaks (cout_lines (trace run))) = 4 + blocks
        /\ Z.of_nat (line_breaks (cout_lines (trace run)))
           <= 4 + batch_size * (top_k + 3)).
Proof.
  intros cs ps p logits phase ids top_k b v Hps Hwd run printed_ids blocks.
  assert (Hcount :
    Z.of_nat (line_breaks (cout_lines (trace run)))
    = 4 + blocks
      + Z.of_nat (count_line_breaks phase)
      + Z.of_nat (list_sum (map count_line_breaks printed_ids))).
  { subst run printed_ids blocks.
    rewrite (DebugPrintLogits_returns cs ps Hps _ _ phase ids _ _ _ Hwd).
    cbn [trace fst cout_lines]. rewrite cout_lines_map.
    destruct Hwd as [_ _ Hb Hv _ _ Hk _].
    unfold report_lines.
    change (Banner phase :: ?r) with ([Banner phase] ++ r).
    rewrite !line_breaks_app, line_breaks_flat_map.
    assert (Hbanner : line_breaks [Banner phase]
                      = (2 + count_line_breaks phase)%nat).
    { unfold line_breaks. cbn. lia. }
    rewrite Hbanner.
    change (line_breaks [EndBanner; Blank]) with 2%nat.
    rewrite (map_ext _ _ (line_breaks_sequence_lines cs ps (data logits) b v
                            (IsLogitDebugVerbose p) (DebugGetTokenizer p)
                            ids top_k)).
    rewrite !Nat2Z.inj_add.
    rewrite (list_sum_separated
               (fun i => count_line_breaks (request_id_of ids i))
               (1 + Z.to_nat (Z.min top_k v)
                + (if IsLogitDebugVerbose p then 1 else 0)) (b - 1))
      by lia.
    pose proof (request_id_line_breaks ids (Z.to_nat b) 0) as Hids.
    cbn [skipn Z.of_nat] in Hids. rewrite Hids.
    assert (Hsize :
      Z.of_nat (1 + Z.to_nat (Z.min top_k v)
                + (if IsLogitDebugVerbose p then 1 else 0))
      = 1 + Z.min top_k v + (if IsLogitDebugVerbose p then 1 else 0))
      by (destruct (IsLogitDebugVerbose p); lia).
    rewrite Hsize, Z2Nat.id by lia.
    lia. }
  split; [ exact Hcount | ].
  intros Hphase Hids. rewrite Hcount.
  rewrite (count_line_breaks_free phase Hphase).
  assert (Hnone : list_sum (map count_line_breaks printed_ids) = O).
  { clear Hcount. induction printed_ids as [ | id l IH ]; [ reflexivity | ].
    cbn [forallb] in Hids. apply andb_true_iff in Hids as [Hid Hl].
    cbn [map]. rewrite list_sum_cons, (count_line_breaks_free id Hid), (IH Hl).
    reflexivity. }
  rewrite Hnone. split; [ lia | ].
  destruct Hwd as [_ _ Hb Hv _ _ Hk _]. subst blocks.
  destruct (IsLogitDebugVerbose p); nia.
Qed.

Lemma report_line_breaks_witness :
  let p := DebugRegisterTokenizer sample_tokenizer (start_process env_verbose) in
  let run :=
    DebugPrintLogits true insertion_partial_sort p sample_logits "DECODE"
      [String "r" (String newline "0")] 3 in
  partial_sort_conforms (@insertion_partial_sort token_logit)
  /\ well_defined_call p sample_logits 3 2 5
  /\ Z.of_nat (line_breaks (cout_lines (trace run))) = 16.
Proof.
  intros p run.
  assert (Hps : partial_sort_conforms (@insertion_partial_sort token_logit))
    by apply insertion_partial_sort_conforms.
  assert (Hwd : well_defined_call p sample_logits 3 2 5)
    by (apply (sample_call_well_defined env_verbose sample_tokenizer);
        discriminate).
  split; [ exact Hps | ]. split; [ exact Hwd | ].
  destruct (report_line_breaks true insertion_partial_sort p sample_logits
              "DECODE" [String "r" (String newline "0")] 3 2 5 Hps Hwd)
    as [Hcount _].
  exact Hcount.
Defined.

(* ================================================================== *)
(** * What a block depends on *)

(** X18.  The block of a sequence depends on the scores of that
    sequence only: two calls with the same process, [top_k] and
    dimensions print the same block for a sequence whose row is the same
    in both tensors, whatever the other rows, the phase label and the
    request identifiers are. *)
Theorem block_depends_on_its_row_only :
  forall (char_is_signed : bool)
    (partial_sort : (token_logit -> token_logit -> bool) -> nat ->
                    list token_logit -> list token_logit)
    (p : Process) (logits logits' : NDArray) (phase phase' : string)
    (request_ids request_ids' : list string)
    (top_k batch_size vocab_size seq_idx : Z),
    partial_sort_conforms partial_sort ->
    well_defined_call p logits top_k batch_size vocab_size ->
    well_defined_call p logits' top_k batch_size vocab_size ->
    0 <= seq_idx < batch_size ->
    row_of (data logits) vocab_size seq_idx
    = row_of (data logits') vocab_size seq_idx ->
    block_of_seq seq_idx
      (cout_lines
         (trace (DebugPrintLogits char_is_signed partial_sort p logits phase
                   request_ids top_k)))
    = block_of_seq seq_idx
        (cout_lines
           (trace (DebugPrintLogits char_is_signed partial_sort p logits'
                     phase' request_ids' top_k))).
Proof.
  intros cs ps p logits logits' phase phase' ids ids' top_k b v seq_idx
    Hps Hwd Hwd' Hs Hrow.
  rewrite (printed_block cs ps Hps _ _ phase ids _ _ _ _ Hwd Hs).
  rewrite (printed_block cs ps Hps _ _ phase' ids' _ _ _ _ Hwd' Hs).
  unfold sequence_body. rewrite Hrow. reflexivity.
Qed.

Lemma block_depends_on_its_row_only_witness :
  let p := start_process env_verbose in
  let logits' :=
    {| device := kDLCPU; shape := [2; 5];
       data := map Float32.of_int [9; 9; 9; 9; 9; 10; -3; 7; 7; 0] |} in
  partial_sort_conforms (@insertion_partial_sort token_logit)
  /\ well_defined_call p sample_logits 3 2 5
  /\ well_defined_call p logits' 3 2 5
  /\ row_of (data sample_logits) 5 1 = row_of (data logits') 5 1
  /\ block_of_seq 1
       (cout_lines
          (trace (DebugPrintLogits true insertion_partial_sort p
                    sample_logits "DECODE" ["a"] 3)))
     = block_of_seq 1
         (cout_lines
            (trace (DebugPrintLogits true insertion_partial_sort p logits'
                      "PREFILL" [] 3))).
Proof.
  intros p logits'.
  assert (Hps : partial_sort_conforms (@insertion_partial_sort token_logit))
    by apply insertion_partial_sort_conforms.
  assert (Hwd : well_defined_call p sample_logits 3 2 5)
    by (apply (sample_call_well_defined env_verbose None); discriminate).
  assert (Hwd' : well_defined_call p logits' 3 2 5)
    by (constructor; try reflexivity; try (cbn; lia);
        try (unfold INT_MAX; lia)).
  split; [ exact Hps | ]. split; [ exact Hwd | ]. split; [ exact Hwd' | ].
  split; [ reflexivity | ].
  apply (block_depends_on_its_row_only true insertion_partial_sort p
           sample_logits logits' "DECODE" "PREFILL" ["a"] [] 3 2 5 1
           Hps Hwd Hwd' ltac:(lia) eq_refl).
Defined.

(* ================================================================== *)
(** * The first entry and the statistics *)

Section FirstEntry.

Variable partial_sort :
  (token_logit -> token_logit -> bool) -> nat -> list token_logit ->
  list token_logit.
Hypothesis partial_sort_ok : partial_sort_conforms partial_sort.

(** The element ranked first is not below any score of the row. *)
Lemma ranked_first_dominates (top_k : Z) (row : list float) :
  1 <= top_k -> row <> [] -> no_nan row ->
  forall x, In x row ->
    Float32.leb x (snd (nth 0 (ranked partial_sort top_k row)
                          (0, Float32.zero))) = true.
Proof.
  intros Hk Hne Hnan x Hx.
  remember (ranked partial_sort top_k row) as R eqn:ER.
  set (k := Z.to_nat (Z.min top_k (Z.of_nat (List.length row)))).
  assert (Hlen : List.length R = List.length row)
    by (rewrite ER; apply (ranked_length partial_sort partial_sort_ok)).
  assert (Hrow : (0 < List.length row)%nat)
    by (destruct row; [ contradiction | cbn; lia ]).
  assert (Hk1 : (1 <= k)%nat) by (unfold k; lia).
  assert (Hperm : Permutation R (enumerate_from 0 row)).
  { rewrite ER. apply (ranked_perm partial_sort partial_sort_ok);
      [ lia | exact Hnan ]. }
  assert (Hsorted : sorted_wrt by_logit_desc (firstn k R)).
  { rewrite ER. apply (ranked_sorted partial_sort partial_sort_ok);
      [ lia | exact Hnan ]. }
  assert (Hswo : strict_weak_order_on by_logit_desc (enumerate_from 0 row)).
  { apply by_logit_desc_strict_weak_order.
    rewrite map_snd_enumerate_from. exact Hnan. }
  assert (Hscore : forall a, In a R -> Float32.is_nan (snd a) = false).
  { intros a Ha. apply (Permutation_in _ Hperm) in Ha.
    apply Hnan. rewrite <- (map_snd_enumerate_from row 0).
    apply in_map, Ha. }
  assert (Hsmall : forall a b, In a (firstn k R) -> In b (skipn k R) ->
                     by_logit_desc b a = false).
  { intros a b Ha Hb. rewrite ER in Ha, Hb. unfold k, ranked in Ha, Hb.
    refine (partial_sort_smallest _ _ partial_sort_ok by_logit_desc
              _ _ a b _ Hswo Ha Hb).
    rewrite enumerate_from_length. lia. }
  clear ER.
  destruct R as [ | a0 R' ]; [ cbn in Hlen; lia | ].
  cbn [nth].
  destruct k as [ | k' ]; [ lia | ].
  assert (Hdom : forall b, In b (a0 :: R') -> by_logit_desc b a0 = false).
  { intros b Hb.
    rewrite <- (firstn_skipn (S k') (a0 :: R')) in Hb. apply in_app_or in Hb.
    destruct Hb as [Hb | Hb].
    - cbn [firstn] in Hb, Hsorted.
      destruct Hb as [<- | Hb].
      + unfold by_logit_desc, Float32.gtb. apply Float32Facts.ltb_irrefl.
      + unfold sorted_wrt in Hsorted.
        inversion Hsorted as [ | a' l' _ Hall ]; subst.
        rewrite Forall_forall in Hall. apply Hall, Hb.
    - apply (Hsmall a0 b); [ left; reflexivity | exact Hb ]. }
  destruct (In_nth_error _ _ Hx) as [j Hj].
  assert (Hin : In (Z.of_nat j, x) (a0 :: R')).
  { apply (Permutation_in _ (Permutation_sym Hperm)).
    apply in_enumerate_from. split; [ lia | ].
    rewrite Z.sub_0_r, Nat2Z.id. exact Hj. }
  specialize (Hdom _ Hin). unfold by_logit_desc, Float32.gtb in Hdom.
  cbn [snd] in Hdom.
  apply Float32Facts.ltb_false_leb; [ | | exact Hdom ].
  - apply Hscore. left. reflexivity.
  - apply Hnan, Hx.
Qed.

End FirstEntry.

(** X19.  For a row without NaN and [top_k >= 1], the entry of rank 0
    carries a highest score of the row: no score of the row is above it,
    and in verbose mode it compares equal to the maximum printed in the
    statistics line. *)
Theorem first_entry_has_the_maximum_score :
  forall (char_is_signed : bool)
    (partial_sort : (token_logit -> token_logit -> bool) -> nat ->
                    list token_logit -> list token_logit)
    (p : Process) (logits : NDArray) (phase : string)
    (request_ids : list string) (top_k batch_size vocab_size seq_idx : Z),
    partial_sort_conforms partial_sort ->
    well_defined_call p logits top_k batch_size vocab_size ->
    0 <= seq_idx < batch_size ->
    1 <= top_k -> 1 <= vocab_size ->
    no_nan (row_of (data logits) vocab_size seq_idx) ->
    let run :=
      DebugPrintLogits char_is_signed partial_sort p logits phase
        request_ids top_k in
    let block := block_of_seq seq_idx (cout_lines (trace run)) in
    exists e,
      hd_error (entries_of block) = Some e
      /\ entry_rank e = 0
      /\ (forall x, In x (row_of (data logits) vocab_size seq_idx) ->
            Float32.leb x (entry_logit e) = true)
      /\ (forall max_logit min_logit mean_logit,
            In (max_logit, min_logit, mean_logit) (stats_of block) ->
            Float32.leb max_logit (entry_logit e) = true
            /\ Float32.leb (entry_logit e) max_logit = true).
Proof.
  intros cs ps p logits phase ids top_k b v seq_idx Hps Hwd Hs Hk Hv1 Hnan
    run block.
  subst block run.
  rewrite (printed_block cs ps Hps _ _ phase ids _ _ _ _ Hwd Hs).
  rewrite entries_of_sequence_body, stats_of_sequence_body.
  destruct Hwd as [_ _ Hb Hv _ Hdata _ _].
  pose proof (row_of_length _ _ _ _ Hdata (proj1 Hv) Hs) as Hrow.
  set (row := row_of (data logits) v seq_idx) in *.
  assert (Hne : row <> []) by (intros E; rewrite E in Hrow; cbn in Hrow; lia).
  destruct (Z.to_nat (Z.min top_k v)) as [ | k' ] eqn:Ek; [ lia | ].
  cbn [iota map hd_error].
  eexists. split; [ reflexivity | ]. split; [ reflexivity | ].
  cbn [entry_logit entry_of]. change (Z.to_nat 0) with 0%nat.
  assert (Hdom := ranked_first_dominates ps Hps top_k row Hk Hne Hnan).
  split; [ exact Hdom | ].
  intros mx mn mean Hstats.
  destruct (IsLogitDebugVerbose p); [ | destruct Hstats ].
  unfold stats_line in Hstats. destruct Hstats as [Hstats | []].
  injection Hstats as <- _ _.
  destruct row as [ | x r ] eqn:Erow; [ contradiction | ]. cbn [hd tl].
  split.
  - apply Hdom, max_element_from_in.
  - apply max_element_from_upper; [ exact Hnan | ].
    assert (Hin : In (nth 0 (ranked ps top_k (x :: r)) (0, Float32.zero))
                     (ranked ps top_k (x :: r))).
    { apply nth_In. rewrite (ranked_length ps Hps). cbn. lia. }
    apply (Permutation_in _ (ranked_perm ps Hps top_k (x :: r)
                               ltac:(lia) Hnan)) in Hin.
    apply (in_map snd) in Hin.
    rewrite map_snd_enumerate_from in Hin. exact Hin.
Qed.

Lemma first_entry_has_the_maximum_score_witness :
  let p := start_process env_verbose in
  let run :=
    DebugPrintLogits true insertion_partial_sort p sample_logits "DECODE"
      [] 3 in
  let block := block_of_seq 1 (cout_lines (trace run)) in
  partial_sort_conforms (@insertion_partial_sort token_logit)
  /\ well_defined_call p sample_logits 3 2 5
  /\ no_nan (row_of (data sample_logits) 5 1)
  /\ exists e,
       hd_error (entries_of block) = Some e
       /\ forall x, In x (row_of (data sample_logits) 5 1) ->
            Float32.leb x (entry_logit e) = true.
Proof.
  intros p run block.
  assert (Hps : partial_sort_conforms (@insertion_partial_sort token_logit))
    by apply insertion_partial_sort_conforms.
  assert (Hwd : well_defined_call p sample_logits 3 2 5)
    by (apply (sample_call_well_defined env_verbose None); discriminate).
  assert (Hnan : no_nan (row_of (data sample_logits) 5 1))
    by (apply no_nanb_spec; reflexivity).
  split; [ exact Hps | ]. split; [ exact Hwd | ]. split; [ exact Hnan | ].
  destruct (first_entry_has_the_maximum_score true insertion_partial_sort p
              sample_logits "DECODE" [] 3 2 5 1 Hps Hwd ltac:(lia) ltac:(lia)
              ltac:(lia) Hnan) as [e [Hhd [_ [Hdom _]]]].
  exists e. split; [ exact Hhd | exact Hdom ].
Defined.

(** X20.  When [top_k] reaches the vocabulary size the whole row is
    printed: for a row without NaN the (token id, score) pairs of the
    entries are a rearrangement of all the pairs of the row, so every
    token is printed exactly once, with its own score. *)
Theorem full_top_k_prints_every_token_once :
  forall (char_is_signed : bool)
    (partial_sort : (token_logit -> token_logit -> bool) -> nat ->
                    list token_logit -> list token_logit)
    (p : Process) (logits : NDArray) (phase : string)
    (request_ids : list string) (top_k batch_size vocab_size seq_idx : Z),
    partial_sort_conforms partial_sort ->
    well_defined_call p logits top_k batch_size vocab_size ->
    0 <= seq_idx < batch_size ->
    vocab_size <= top_k ->
    no_nan (row_of (data logits) vocab_size seq_idx) ->
    let run :=
      DebugPrintLogits char_is_signed partial_sort p logits phase
        request_ids top_k in
    let es := entries_of (block_of_seq seq_idx (cout_lines (trace run))) in
    Permutation (map (fun e => (entry_token_id e, entry_logit e)) es)
                (enumerate_from 0 (row_of (data logits) vocab_size seq_idx))
    /\ Permutation (map entry_token_id es) (iota 0 (Z.to_nat vocab_size))
    /\ Permutation (scores es) (row_of (data logits) vocab_size seq_idx).
Proof.
  intros cs ps p logits phase ids top_k b v seq_idx Hps Hwd Hs Hfull Hnan
    run es.
  subst es run.
  rewrite (printed_block cs ps Hps _ _ phase ids _ _ _ _ Hwd Hs).
  rewrite entries_of_sequence_body.
  destruct Hwd as [_ _ Hb Hv _ Hdata Hk _].
  pose proof (row_of_length _ _ _ _ Hdata (proj1 Hv) Hs) as Hrow.
  set (row := row_of (data logits) v seq_idx) in *.
  set (R := ranked ps top_k row).
  assert (Hlen : List.length R = List.length row)
    by apply (ranked_length ps Hps).
  assert (Hpairs :
    map (fun e => (entry_token_id e, entry_logit e))
        (map (entry_of cs (DebugGetTokenizer p) (IsLogitDebugVerbose p) R)
             (iota 0 (Z.to_nat (Z.min top_k v)))) = R).
  { rewrite printed_pairs by lia. apply firstn_all2. lia. }
  assert (Hperm : Permutation R (enumerate_from 0 row))
    by (apply (ranked_perm ps Hps); assumption).
  assert (Hall :
    Permutation
      (map (fun e => (entry_token_id e, entry_logit e))
           (map (entry_of cs (DebugGetTokenizer p) (IsLogitDebugVerbose p) R)
                (iota 0 (Z.to_nat (Z.min top_k v)))))
      (enumerate_from 0 row))
    by (rewrite Hpairs; exact Hperm).
  split; [ exact Hall | ]. split.
  - apply (Permutation_map fst) in Hall.
    rewrite map_map, map_fst_enumerate_from in Hall. cbn [fst] in Hall.
    replace (Z.to_nat v) with (List.length row) by lia. exact Hall.
  - apply (Permutation_map snd) in Hall.
    rewrite map_map, map_snd_enumerate_from in Hall. exact Hall.
Qed.

Lemma full_top_k_prints_every_token_once_witness :
  let p := start_process env_plain in
  let run :=
    DebugPrintLogits true insertion_partial_sort p sample_logits "DECODE"
      [] default_top_k in
  let es := entries_of (block_of_seq 0 (cout_lines (trace run))) in
  partial_sort_conforms (@insertion_partial_sort token_logit)
  /\ well_defined_call p sample_logits default_top_k 2 5
  /\ no_nan (row_of (data sample_logits) 5 0)
  /\ map entry_token_id es = [1; 4; 2; 3; 0]
  /\ Permutation (map entry_token_id es) (iota 0 5).
Proof.
  intros p run es.
  assert (Hps : partial_sort_conforms (@insertion_partial_sort token_logit))
    by apply insertion_partial_sort_conforms.
  assert (Hwd : well_defined_call p sample_logits default_top_k 2 5)
    by (constructor; try reflexivity; try (cbn; lia);
        try (unfold INT_MAX; lia); try (unfold default_top_k; lia)).
  assert (Hnan : no_nan (row_of (data sample_logits) 5 0))
    by (apply no_nanb_spec; reflexivity).
  split; [ exact Hps | ]. split; [ exact Hwd | ]. split; [ exact Hnan | ].
  split; [ reflexivity | ].
  apply (full_top_k_prints_every_token_once true insertion_partial_sort p
           sample_logits "DECODE" [] default_top_k 2 5 0 Hps Hwd
           ltac:(lia) ltac:(unfold default_top_k; lia) Hnan).
Defined.

(* ================================================================== *)
(** * NaN scores in the statistics *)

Lemma add_nan_l (x y : float) :
  Float32.is_nan x = true -> Float32.is_nan (Float32.add x y) = true.
Proof. destruct x; try discriminate. intros _. destruct y; reflexivity. Qed.

Lemma add_nan_r (x y : float) :
  Float32.is_nan y = true -> Float32.is_nan (Float32.add x y) = true.
Proof. destruct y; try discriminate. intros _. destruct x; reflexivity. Qed.

Lemma div_nan_l (x y : float) :
  Float32.is_nan x = true -> Float32.is_nan (Float32.div x y) = true.
Proof. destruct x; try discriminate. intros _. destruct y; reflexivity. Qed.

Lemma accumulate_nan_init (l : list float) :
  forall init, Float32.is_nan init = true ->
    Float32.is_nan (accumulate l init) = true.
Proof.
  unfold accumulate. induction l as [ | x l IH ]; intros init H; cbn.
  - exact H.
  - apply IH, add_nan_l, H.
Qed.

Lemma accumulate_nan (l : list float) :
  forall init, (exists x, In x l /\ Float32.is_nan x = true) ->
    Float32.is_nan (accumulate l init) = true.
Proof.
  induction l as [ | y l IH ]; intros init [x [Hx Hnan]].
  - destruct Hx.
  - destruct Hx as [<- | Hx].
    + apply (accumulate_nan_init l), add_nan_r, Hnan.
    + apply (IH (Float32.add init y)). exists x. split; assumption.
Qed.

Lemma max_element_from_nan (l : list float) (best : float) :
  Float32.is_nan best = true -> max_element_from best l = best.
Proof.
  intros H. destruct best; try discriminate.
  induction l as [ | x l IH ]; cbn [max_element_from]; [ reflexivity | ].
  change (Float32.ltb S754_nan x) with (Float32.ltb Float32.nan x).
  rewrite Float32Facts.ltb_nan_l. exact IH.
Qed.

Lemma min_element_from_nan (l : list float) (best : float) :
  Float32.is_nan best = true -> min_element_from best l = best.
Proof.
  intros H. destruct best; try discriminate.
  induction l as [ | x l IH ]; cbn [min_element_from]; [ reflexivity | ].
  change (Float32.ltb x S754_nan) with (Float32.ltb x Float32.nan).
  rewrite Float32Facts.ltb_nan_r. exact IH.
Qed.

Lemma is_nan_true (x : float) : Float32.is_nan x = true -> x = Float32.nan.
Proof. destruct x; try discriminate. reflexivity. Qed.

Lemma max_element_from_skips_nan (l : list float) :
  forall best,
    max_element_from best l
    = max_element_from best
        (filter (fun x => negb (Float32.is_nan x)) l).
Proof.
  induction l as [ | x l IH ]; intros best; cbn [max_element_from filter].
  - reflexivity.
  - destruct (Float32.is_nan x) eqn:Hx; cbn [negb max_element_from].
    + rewrite (is_nan_true x Hx), Float32Facts.ltb_nan_r. apply IH.
    + apply IH.
Qed.

Lemma min_element_from_skips_nan (l : list float) :
  forall best,
    min_element_from best l
    = min_element_from best
        (filter (fun x => negb (Float32.is_nan x)) l).
Proof.
  induction l as [ | x l IH ]; intros best; cbn [min_element_from filter].
  - reflexivity.
  - destruct (Float32.is_nan x) eqn:Hx; cbn [negb min_element_from].
    + rewrite (is_nan_true x Hx), Float32Facts.ltb_nan_l. apply IH.
    + apply IH.
Qed.

(** X21.  NaN scores in the statistics line of verbose mode.  A NaN
    anywhere in the row makes the mean NaN.  The maximum and the minimum
    look at the first score: when it is NaN both are NaN, and when it is
    not, every NaN further on is skipped and the two are the maximum
    and the minimum of the scores that are not NaN. *)
Theorem nan_scores_in_the_statistics :
  forall (char_is_signed : bool)
    (partial_sort : (token_logit -> token_logit -> bool) -> nat ->
                    list token_logit -> list token_logit)
    (p : Process) (logits : NDArray) (phase : string)
    (request_ids : list string) (top_k batch_size vocab_size seq_idx : Z),
    partial_sort_conforms partial_sort ->
    well_defined_call p logits top_k batch_size vocab_size ->
    IsLogitDebugVerbose p = true ->
    0 <= seq_idx < batch_size ->
    let run :=
      DebugPrintLogits char_is_signed partial_sort p logits phase
        request_ids top_k in
    let row := row_of (data logits) vocab_size seq_idx in
    let numbers := filter (fun x => negb (Float32.is_nan x)) row in
    exists max_logit min_logit mean_logit,
      stats_of (block_of_seq seq_idx (cout_lines (trace run)))
      = [(max_logit, min_logit, mean_logit)]
      /\ ((exists x, In x row /\ Float32.is_nan x = true) ->
          Float32.is_nan mean_logit = true)
      /\ (Float32.is_nan (hd Float32.zero row) = true ->
          Float32.is_nan max_logit = true
          /\ Float32.is_nan min_logit = true)
      /\ (Float32.is_nan (hd Float32.zero row) = false ->
          In max_logit numbers /\ In min_logit numbers
          /\ forall x, In x numbers ->
               Float32.leb min_logit x = true
               /\ Float32.leb x max_logit = true).
Proof.
  intros cs ps p logits phase ids top_k b v seq_idx Hps Hwd Hverbose Hs
    run row numbers.
  subst run.
  rewrite (printed_block cs ps Hps _ _ phase ids _ _ _ _ Hwd Hs).
  rewrite stats_of_sequence_body, Hverbose.
  destruct Hwd as [_ _ Hb Hv _ Hdata Hk Hstats].
  pose proof (row_of_length _ _ _ _ Hdata (proj1 Hv) Hs) as Hrow.
  fold row in Hrow |- *. specialize (Hstats Hverbose).
  unfold stats_line.
  eexists _, _, _. split; [ reflexivity | ].
  split; [ intros Hnan; apply div_nan_l, accumulate_nan, Hnan | ].
  subst numbers.
  destruct row as [ | x r ]; [ cbn in Hrow; lia | ]. cbn [hd tl].
  split.
  - intros Hx.
    rewrite (max_element_from_nan r x Hx), (min_element_from_nan r x Hx).
    split; exact Hx.
  - intros Hx. cbn [filter]. rewrite Hx. cbn [negb].
    rewrite max_element_from_skips_nan, min_element_from_skips_nan.
    set (rest := filter (fun y => negb (Float32.is_nan y)) r).
    assert (Hnan : no_nan (x :: rest)).
    { intros y [<- | Hy]; [ exact Hx | ].
      apply filter_In in Hy. destruct Hy as [_ Hy].
      apply negb_true_iff, Hy. }
    split; [ apply max_element_from_in | ].
    split; [ apply min_element_from_in | ].
    intros y Hy. split;
      [ apply min_element_from_lower | apply max_element_from_upper ];
      assumption.
Qed.

Lemma nan_scores_in_the_statistics_witness :
  let p := start_process env_verbose in
  let logits :=
    {| device := kDLCPU; shape := [1; 3];
       data := [Float32.of_int 2; Float32.nan; Float32.of_int 5] |} in
  let run :=
    DebugPrintLogits true insertion_partial_sort p logits "DECODE" [] 0 in
  partial_sort_conforms (@insertion_partial_sort token_logit)
  /\ well_defined_call p logits 0 1 3
  /\ IsLogitDebugVerbose p = true
  /\ stats_of (block_of_seq 0 (cout_lines (trace run)))
     = [(Float32.of_int 5, Float32.of_int 2, Float32.nan)]
  /\ exists max_logit min_logit mean_logit,
       stats_of (block_of_seq 0 (cout_lines (trace run)))
       = [(max_logit, min_logit, mean_logit)]
       /\ Float32.is_nan mean_logit = true.
Proof.
  intros p logits run.
  assert (Hps : partial_sort_conforms (@insertion_partial_sort token_logit))
    by apply insertion_partial_sort_conforms.
  assert (Hwd : well_defined_call p logits 0 1 3)
    by (constructor; try reflexivity; try (cbn; lia);
        try (unfold INT_MAX; lia)).
  split; [ exact Hps | ]. split; [ exact Hwd | ]. split; [ reflexivity | ].
  split; [ reflexivity | ].
  destruct (nan_scores_in_the_statistics true insertion_partial_sort p
              logits "DECODE" [] 0 1 3 0 Hps Hwd eq_refl ltac:(lia))
    as [mx [mn [mean [Hstats [Hmean _]]]]].
  exists mx, mn, mean. split; [ exact Hstats | ].
  apply Hmean. exists Float32.nan. split; [ | reflexivity ].
  right. left. reflexivity.
Defined.
